(** * Crypto Tracker: the filter/merge engine, the market-data client and the
      detail view of [src/crypto-tracker/src/App.jsx]

    The development embeds the parts of [App.jsx] that carry logic:

    - [filteredAndSortedCoins] (lines 329-361), the derived list shown in the
      grid, first as a pure function on lists and then as a program over a
      store of JavaScript arrays, where [Array.prototype.sort] works in place;
    - [coinGeckoAPI] (lines 27-79), three [async] functions whose bodies are
      wrapped in [try]/[catch];
    - the chart effect of [CoinDetail] (lines 245-259), as a transition system
      over the events of the single-threaded event loop. *)

From Stdlib Require Import Bool List String Ascii Arith PeanoNat ZArith QArith Lia.
From Stdlib Require Import Sorting.Sorted Sorting.Permutation Lqa.
From stdpp Require Import base list.
Import ListNotations.

Set Warnings "-register-all".

Local Open Scope string_scope.
Local Open Scope list_scope.

(** ** JavaScript strings

    Strings are sequences of characters; the model covers ASCII text, on which
    [String.prototype.toLowerCase] maps [A]-[Z] to [a]-[z] and leaves every
    other character alone. *)

Definition lowerChar (c : ascii) : ascii :=
  let n := nat_of_ascii c in
  if (65 <=? n)%nat && (n <=? 90)%nat then ascii_of_nat (n + 32) else c.

Fixpoint toLowerCase (s : string) : string :=
  match s with
  | EmptyString => EmptyString
  | String c s' => String (lowerChar c) (toLowerCase s')
  end.

(** [startsWith s sub]: [sub] is a prefix of [s]. *)
Fixpoint startsWith (s sub : string) {struct sub} : bool :=
  match sub, s with
  | EmptyString, _ => true
  | String _ _, EmptyString => false
  | String b sub', String a s' => Ascii.eqb a b && startsWith s' sub'
  end.

(** [String.prototype.includes]: [sub] occurs in [s] at some position. *)
Fixpoint includes (s sub : string) : bool :=
  startsWith s sub ||
  match s with
  | EmptyString => false
  | String _ s' => includes s' sub
  end.

(** ** JavaScript numbers

    A number is a rational or [NaN] ([None]); [undefined], the value of a
    missing field, converts to [NaN] wherever the code below uses it as a
    number, and [null] converts to [0].  Every finite double is a rational,
    and on finite doubles the comparisons with [0] and the sign of a
    difference are those of the exact values, which is all the code looks
    at. *)

Definition number : Type := option Q.

Definition NaN : number := None.

Definition num (q : Q) : number := Some q.

Definition Qltb (x y : Q) : bool :=
  match (x ?= y)%Q with
  | Lt => true
  | _ => false
  end.

(** [a > b] and [a < b]: false as soon as one side is [NaN]. *)
Definition js_gt (a b : number) : bool :=
  match a, b with
  | Some x, Some y => Qltb y x
  | _, _ => false
  end.

Definition js_lt (a b : number) : bool :=
  match a, b with
  | Some x, Some y => Qltb x y
  | _, _ => false
  end.

(** [a - b]: [NaN] as soon as one side is [NaN]. *)
Definition js_sub (a b : number) : number :=
  match a, b with
  | Some x, Some y => Some (x - y)%Q
  | _, _ => None
  end.

(** ** Data model

    A coin as the engine reads it: [name] and [symbol] are strings (the engine
    calls [toLowerCase] on them), [id] is a string, and the three numeric
    fields may be missing. *)

Record Coin : Type := mkCoin {
  id : string;
  symbol : string;
  name : string;
  image : option string;
  current_price : number;
  price_change_percentage_24h : number;
  market_cap : number
}.

(** The three keys of the [filters] table of [SearchFilter] (lines 209-213),
    the only values [setFilter] is ever called with. *)
Inductive Filter : Type := all | gainers | losers.

(** ** Arrays

    [Array.prototype.filter] builds a new array and is [List.filter].

    [Array.prototype.sort] is stable; with a comparator that is consistent on
    the array, its result is the one stable sorted arrangement, which the
    insertion sort below computes.  The comparator returns a number: a
    positive result puts [b] before [a], and [NaN] counts as [0]. *)

Section ArraySort.
Context {A : Type}.
Variable comparefn : A -> A -> number.

Fixpoint sort_insert (x : A) (l : list A) : list A :=
  match l with
  | [] => [x]
  | y :: l' =>
      if js_gt (comparefn x y) (num 0) then y :: sort_insert x l'
      else x :: y :: l'
  end.

Fixpoint sort (l : list A) : list A :=
  match l with
  | [] => []
  | x :: l' => sort_insert x (sort l')
  end.
End ArraySort.

(** ** The filter/merge engine (lines 329-361) *)

(** The search predicate, written twice in the source: for the generic coins
    (lines 330-333) and for the pinned record (lines 347-348). *)
Definition matchesSearch (searchTerm : string) (coin : Coin) : bool :=
  includes (toLowerCase (name coin)) (toLowerCase searchTerm) ||
  includes (toLowerCase (symbol coin)) (toLowerCase searchTerm).

(** Lines 350-352. *)
Definition vanryMatchesFilter (filter : Filter) (vanryData : Coin) : bool :=
  match filter with
  | all => true
  | gainers => js_gt (price_change_percentage_24h vanryData) (num 0)
  | losers => js_lt (price_change_percentage_24h vanryData) (num 0)
  end.

(** The [switch] of lines 335-344, applied to the searched list. *)
Definition applyFilter (filter : Filter) (filtered : list Coin) : list Coin :=
  match filter with
  | gainers =>
      sort (fun a b => js_sub (price_change_percentage_24h b)
                              (price_change_percentage_24h a))
           (List.filter (fun coin => js_gt (price_change_percentage_24h coin) (num 0))
                        filtered)
  | losers =>
      sort (fun a b => js_sub (price_change_percentage_24h a)
                              (price_change_percentage_24h b))
           (List.filter (fun coin => js_lt (price_change_percentage_24h coin) (num 0))
                        filtered)
  | all => filtered
  end.

(** [coin.id !== 'vanar-chain'] (line 355). *)
Definition notVanar (coin : Coin) : bool :=
  negb (String.eqb (id coin) "vanar-chain").

Definition filteredAndSortedCoins
    (coins : list Coin) (vanryData : option Coin)
    (searchTerm : string) (filter : Filter) : list Coin :=
  let filtered := List.filter (matchesSearch searchTerm) coins in
  let filtered := applyFilter filter filtered in
  match vanryData with
  | Some vanryData =>
      let vanryMatchesSearch := matchesSearch searchTerm vanryData in
      if vanryMatchesSearch && vanryMatchesFilter filter vanryData
      then vanryData :: List.filter notVanar filtered
      else filtered
  | None => filtered
  end.

(** ** The engine over a store of objects and arrays

    In the program [coins] and [vanryData] are references: an array holds
    references to coin objects, [filter] and the spread [[vanryData,
    ...filtered]] allocate a new array, and [sort] reorders the array it is
    called on and returns that same array.  The store keeps the two kinds of
    cell apart; a reference is an index into its table. *)

Abbreviation loc := nat (only parsing).

Record Heap : Type := mkHeap {
  objects : list Coin;
  arrays : list (list loc)
}.

(** A computation reads and writes the store and stops with [None] on a
    reference that points nowhere. *)
Definition M (A : Type) : Type := Heap -> option (A * Heap).

Definition ret {A : Type} (a : A) : M A := fun h => Some (a, h).

Definition bind {A B : Type} (m : M A) (k : A -> M B) : M B :=
  fun h =>
    match m h with
    | Some (a, h') => k a h'
    | None => None
    end.

Notation "x <- m ;; k" := (bind m (fun x => k))
  (at level 20, m at level 99, k at level 200).

Definition readObj (r : loc) : M Coin :=
  fun h =>
    match objects h !! r with
    | Some c => Some (c, h)
    | None => None
    end.

Definition readArr (a : loc) : M (list loc) :=
  fun h =>
    match arrays h !! a with
    | Some l => Some (l, h)
    | None => None
    end.

Definition allocArr (l : list loc) : M loc :=
  fun h => Some (length (arrays h), mkHeap (objects h) (arrays h ++ [l])).

Definition writeArr (a : loc) (l : list loc) : M unit :=
  fun h =>
    if (a <? length (arrays h))%nat
    then Some (tt, mkHeap (objects h) (<[a := l]> (arrays h)))
    else None.

(** The elements of an array together with the objects they point to. *)
Fixpoint readAll (l : list loc) : M (list (loc * Coin)) :=
  match l with
  | [] => ret []
  | r :: l' =>
      c <- readObj r ;;
      cs <- readAll l' ;;
      ret ((r, c) :: cs)
  end.

(** [a.filter(p)]: a new array with the elements of [a] that pass [p]. *)
Definition Array_filter (p : Coin -> bool) (a : loc) : M loc :=
  l <- readArr a ;;
  cs <- readAll l ;;
  allocArr (map fst (List.filter (fun rc => p (snd rc)) cs)).

(** [a.sort(comparefn)]: reorders [a] itself and returns it. *)
Definition Array_sort (comparefn : Coin -> Coin -> number) (a : loc) : M loc :=
  l <- readArr a ;;
  cs <- readAll l ;;
  _ <- writeArr a (map fst (sort (fun x y => comparefn (snd x) (snd y)) cs)) ;;
  ret a.

(** [[v, ...a]]: a new array. *)
Definition Array_spread_cons (v : loc) (a : loc) : M loc :=
  l <- readArr a ;;
  allocArr (v :: l).

Definition applyFilterM (filter : Filter) (filtered : loc) : M loc :=
  match filter with
  | gainers =>
      kept <-
        Array_filter (fun coin => js_gt (price_change_percentage_24h coin) (num 0))
                     filtered ;;
      Array_sort (fun a b => js_sub (price_change_percentage_24h b)
                                    (price_change_percentage_24h a)) kept
  | losers =>
      kept <-
        Array_filter (fun coin => js_lt (price_change_percentage_24h coin) (num 0))
                     filtered ;;
      Array_sort (fun a b => js_sub (price_change_percentage_24h a)
                                    (price_change_percentage_24h b)) kept
  | all => ret filtered
  end.

Definition filteredAndSortedCoinsM
    (coins : loc) (vanryData : option loc)
    (searchTerm : string) (filter : Filter) : M loc :=
  filtered <- Array_filter (matchesSearch searchTerm) coins ;;
  filtered <- applyFilterM filter filtered ;;
  match vanryData with
  | Some vanryRef =>
      vanry <- readObj vanryRef ;;
      if matchesSearch searchTerm vanry && vanryMatchesFilter filter vanry
      then
        filtered <- Array_filter notVanar filtered ;;
        Array_spread_cons vanryRef filtered
      else ret filtered
  | None => ret filtered
  end.

(** The objects a list of references points to, by the object table alone. *)
Fixpoint deref (objs : list Coin) (l : list loc) : option (list (loc * Coin)) :=
  match l with
  | [] => Some []
  | r :: l' =>
      match objs !! r, deref objs l' with
      | Some c, Some cs => Some ((r, c) :: cs)
      | _, _ => None
      end
  end.

(** What an array of the store holds, as a list of records. *)
Definition contents (h : Heap) (a : loc) : option (list Coin) :=
  match arrays h !! a with
  | Some l =>
      match deref (objects h) l with
      | Some cs => Some (map snd cs)
      | None => None
      end
  | None => None
  end.

(** The record behind the [vanryData] reference; [None] for [null]. *)
Definition pinnedRecord (h : Heap) (vanryData : option loc) : option Coin :=
  match vanryData with
  | Some r => objects h !! r
  | None => None
  end.

(** [h'] keeps every object of [h] and every array of [h] below [n]. *)
Definition frame (n : nat) (h h' : Heap) : Prop :=
  objects h' = objects h /\
  (length (arrays h) <= length (arrays h'))%nat /\
  forall a : loc, (a < n)%nat -> arrays h' !! a = arrays h !! a.

(** Every reference of the store leads somewhere. *)
Definition wellFormed (h : Heap) : Prop :=
  Forall (Forall (fun r => (r < length (objects h))%nat)) (arrays h).

(** ** The market-data client (lines 27-79)

    [fetch] resolves to a response or rejects (a transport failure);
    [response.json()] resolves to the parsed body or rejects.  An [async]
    function is one sequential chain of [await]s, so its outcome is a
    completion: a value, or a thrown error. *)

Module coinGeckoAPI.

Inductive Json : Type :=
| JNull
| JBool (b : bool)
| JNum (q : Q)
| JStr (s : string)
| JArr (items : list Json)
| JObj (props : list (string * Json)).

(** What a property read yields: a parsed value, or [undefined] ([None]). *)
Definition Value : Type := option Json.

Inductive Error : Type :=
| TypeError
| SyntaxError
| NetworkError
| ErrorOf (message : string).

Inductive Completion (A : Type) : Type :=
| Normal (v : A)
| Throw (e : Error).
Arguments Normal {A} v.
Arguments Throw {A} e.

#[global] Instance Completion_ret : MRet Completion := fun A v => Normal v.
#[global] Instance Completion_bind : MBind Completion := fun A B k m =>
  match m with
  | Normal v => k v
  | Throw e => Throw e
  end.

(** [try { body } catch (error) { handler }]. *)
Definition try_catch {A : Type} (body : Completion A)
    (handler : Error -> Completion A) : Completion A :=
  match body with
  | Normal v => Normal v
  | Throw e => handler e
  end.

Record Response : Type := mkResponse {
  ok : bool;
  json : Completion Json
}.

Definition Fetch : Type := string -> Completion Response.

(** The own properties of a parsed object, each key once. *)
Fixpoint assoc (k : string) (props : list (string * Json)) : Value :=
  match props with
  | [] => None
  | (k', v) :: props' => if String.eqb k k' then Some v else assoc k props'
  end.

(** [v.k]: a [TypeError] on [null] and [undefined]; none of the keys the
    client reads exists on a string, number, boolean or array. *)
Definition getProp (v : Value) (k : string) : Completion Value :=
  match v with
  | None | Some JNull => Throw TypeError
  | Some (JObj props) => Normal (assoc k props)
  | Some _ => Normal None
  end.

(** [v?.k]. *)
Definition getPropOpt (v : Value) (k : string) : Completion Value :=
  match v with
  | None | Some JNull => Normal None
  | _ => getProp v k
  end.

(** The three addresses the client requests. *)
Definition coinsUrl : string :=
  "https://api.coingecko.com/api/v3/coins/markets?vs_currency=usd&order=market_cap_desc&per_page=100&page=1&sparkline=false&price_change_percentage=24h".

Definition vanryUrl : string := "https://api.coingecko.com/api/v3/coins/vanar-chain".

Definition chartUrl (coinId : string) : string :=
  ("https://api.coingecko.com/api/v3/coins/" ++ coinId
   ++ "/market_chart?vs_currency=usd&days=7")%string.

(** Lines 28-39. *)
Definition fetchCoins (fetch : Fetch) : Completion Json :=
  try_catch
    (response ← fetch coinsUrl;
     if negb (ok response) then Throw (ErrorOf "Failed to fetch coins")
     else json response)
    (fun error => Normal (JArr [])).

(** The object literal of lines 46-54. *)
Record VanryData : Type := mkVanryData {
  id : Value;
  symbol : Value;
  name : Value;
  image : Value;
  current_price : Value;
  price_change_percentage_24h : Value;
  market_cap : Value
}.

(** Lines 41-59; [None] is [null]. *)
Definition fetchVanryData (fetch : Fetch) : Completion (option VanryData) :=
  try_catch
    (response ← fetch vanryUrl;
     if negb (ok response) then Throw (ErrorOf "Failed to fetch Vanry data")
     else
       data ← json response;
       let data : Value := Some data in
       id ← getProp data "id";
       symbol ← getProp data "symbol";
       name ← getProp data "name";
       image ← (i ← getProp data "image"; getPropOpt i "large");
       current_price ←
         (m ← getProp data "market_data";
          c ← getPropOpt m "current_price";
          getPropOpt c "usd");
       price_change_percentage_24h ←
         (m ← getProp data "market_data";
          getPropOpt m "price_change_percentage_24h");
       market_cap ←
         (m ← getProp data "market_data";
          c ← getPropOpt m "market_cap";
          getPropOpt c "usd");
       Normal (Some (mkVanryData id symbol name image current_price
                                 price_change_percentage_24h market_cap)))
    (fun error => Normal None).

Record PricePoint : Type := mkPricePoint {
  date : string;
  price : Value;
  timestamp : Value
}.

Definition charAt (s : string) (n : nat) : Value :=
  match String.get n s with
  | Some c => Some (JStr (String c EmptyString))
  | None => None
  end.

(** The parameter pattern [[timestamp, price]]: the entry is iterated, which
    arrays and strings allow and nothing else in a parsed body does. *)
Definition destructurePair (entry : Json) : Completion (Value * Value) :=
  match entry with
  | JArr items => Normal (nth_error items 0, nth_error items 1)
  | JStr s => Normal (charAt s 0, charAt s 1)
  | _ => Throw TypeError
  end.

Section Chart.
(** [new Date(timestamp).toLocaleDateString()] depends on the locale of
    the browser; it yields a string for every value. *)
Variable toLocaleDateString : Value -> string.

Fixpoint mapPrices (prices : list Json) : Completion (list PricePoint) :=
  match prices with
  | [] => Normal []
  | entry :: prices' =>
      tp ← destructurePair entry;
      rest ← mapPrices prices';
      Normal (mkPricePoint (toLocaleDateString (fst tp)) (snd tp) (fst tp) :: rest)
  end.

(** [data.prices.map(...)]: only an array has a [map] to call. *)
Definition mapOf (prices : Value) : Completion (list PricePoint) :=
  match prices with
  | Some (JArr items) => mapPrices items
  | _ => Throw TypeError
  end.

(** Lines 61-78. *)
Definition fetchChartData (fetch : Fetch) (coinId : string)
    : Completion (list PricePoint) :=
  try_catch
    (response ← fetch (chartUrl coinId);
     if negb (ok response) then Throw (ErrorOf "Failed to fetch chart data")
     else
       data ← json response;
       prices ← getProp (Some data) "prices";
       mapOf prices)
    (fun error => Normal []).
End Chart.

(** The two failures of the transport: the request is rejected, or the
    response arrives with a status outside 200-299. *)
Definition failed (c : Completion Response) : Prop :=
  match c with
  | Throw _ => True
  | Normal response => ok response = false
  end.

End coinGeckoAPI.

(** ** The chart state of [CoinDetail] (lines 245-259)

    The component stays mounted while [CryptocurrencyTracker] is; its state is
    [chartData] and [loading], its prop is [coin].  The event loop runs one
    event at a time: a change of the [coin] prop, after which the effect of
    lines 250-259 runs, or the resolution of a chart fetch issued earlier,
    after which the rest of [fetchChart] runs. *)

Record DetailState : Type := mkDetailState {
  coin : option Coin;
  chartData : list coinGeckoAPI.PricePoint;
  loading : bool;
  inFlight : list string
}.

Inductive Event : Type :=
| SetCoin (c : option Coin)
| Resolve (coinId : string).

Definition initialDetail : DetailState := mkDetailState None [] true [].

Fixpoint removeOne (i : string) (l : list string) : list string :=
  match l with
  | [] => []
  | j :: l' => if String.eqb i j then l' else j :: removeOne i l'
  end.

Section CoinDetail.
(** The array the promise of [fetchChartData(coinId)] resolves with. *)
Variable chartOf : string -> list coinGeckoAPI.PricePoint.

Definition step (st : DetailState) (e : Event) : option DetailState :=
  match e with
  | SetCoin None =>
      Some (mkDetailState None (chartData st) (loading st) (inFlight st))
  | SetCoin (Some c) =>
      Some (mkDetailState (Some c) (chartData st) true (inFlight st ++ [id c]))
  | Resolve i =>
      if existsb (String.eqb i) (inFlight st)
      then Some (mkDetailState (coin st) (chartOf i) false (removeOne i (inFlight st)))
      else None
  end.

Fixpoint run (st : DetailState) (es : list Event) : option DetailState :=
  match es with
  | [] => Some st
  | e :: es' =>
      match step st e with
      | Some st' => run st' es'
      | None => None
      end
  end.

(** What the modal draws under "7-Day Price Chart" (lines 308-314): nothing
    while closed, the spinner ([None]) while loading, else [chartData]. *)
Definition shownChart (st : DetailState) : option (list coinGeckoAPI.PricePoint) :=
  match coin st with
  | Some _ => if loading st then None else Some (chartData st)
  | None => None
  end.
End CoinDetail.

(** The records of the scenario of section 8 of the specification carry four
    fields; the other three are missing. *)
Definition coin4 (i s n : string) (pct : Q) : Coin :=
  mkCoin i s n None NaN (num pct) NaN.

Definition Alpha : Coin := coin4 "a" "a" "Alpha" 5.
Definition Beta : Coin := coin4 "b" "b" "Beta" (-3).
Definition Pinned : Coin := coin4 "p" "p" "Pinned" 2.


Definition Other : Coin := coin4 "p" "o" "Other" 1.
Definition Vanar : Coin := coin4 "vanar-chain" "vanry" "Vanar Chain" 0.
Definition VanarPinned : Coin := coin4 "vanar-chain" "vanry" "Vanar Chain" 2.

(** ** Vocabulary of the properties *)

(** [text] contains [s] as a substring once both are lower-cased. *)
Definition containsCI (text s : string) : Prop :=
  exists pre post, toLowerCase text = (pre ++ toLowerCase s ++ post)%string.

Definition isGainer (c : Coin) : Prop :=
  exists q, price_change_percentage_24h c = Some q /\ (0 < q)%Q.

Definition isLoser (c : Coin) : Prop :=
  exists q, price_change_percentage_24h c = Some q /\ (q < 0)%Q.

(** [a] may stand before [b] in a list sorted descending (ascending) by
    [price_change_percentage_24h]. *)
Definition descending (a b : Coin) : Prop :=
  exists x y, price_change_percentage_24h a = Some x /\
              price_change_percentage_24h b = Some y /\ (y <= x)%Q.

Definition ascending (a b : Coin) : Prop :=
  exists x y, price_change_percentage_24h a = Some x /\
              price_change_percentage_24h b = Some y /\ (x <= y)%Q.

(** The pinned record, taken on its own, passes the search and the filter. *)
Definition pinnedMatches (vanryData : Coin) (searchTerm : string) (filter : Filter) : bool :=
  matchesSearch searchTerm vanryData && vanryMatchesFilter filter vanryData.

(** The part of the result that is the prepended pinned record. *)
Definition pinnedPart (vanryData : option Coin) (searchTerm : string) (filter : Filter)
    : list Coin :=
  match vanryData with
  | Some v => if pinnedMatches v searchTerm filter then [v] else []
  | None => []
  end.

Definition pinnedShown (vanryData : option Coin) (searchTerm : string) (filter : Filter)
    : bool :=
  match vanryData with
  | Some v => pinnedMatches v searchTerm filter
  | None => false
  end.

(** The generic coins after the search and the filter, before the pinned
    record is looked at. *)
Definition searchedAndFiltered (coins : list Coin) (searchTerm : string) (filter : Filter)
    : list Coin :=
  applyFilter filter (List.filter (matchesSearch searchTerm) coins).

(** The rest of the result: the generic coins that passed, without the
    entries of id ['vanar-chain'] when the pinned record is shown. *)
Definition nonPinnedPart (coins : list Coin) (vanryData : option Coin)
    (searchTerm : string) (filter : Filter) : list Coin :=
  if pinnedShown vanryData searchTerm filter
  then List.filter notVanar (searchedAndFiltered coins searchTerm filter)
  else searchedAndFiltered coins searchTerm filter.

(** [a >= b]: false as soon as one side is [NaN]. *)
Definition js_ge (a b : number) : bool :=
  match a, b with
  | Some x, Some y => Qle_bool y x
  | _, _ => false
  end.

(** ** [CoinCard] (lines 167-203)

    The colour class of the percentage line (line 169) and the sign written
    before the percentage (line 196). *)
Definition changeColor (coin : Coin) : string :=
  if js_ge (price_change_percentage_24h coin) (num 0)
  then "text-green-500" else "text-red-500".

Definition changePrefix (coin : Coin) : string :=
  if js_ge (price_change_percentage_24h coin) (num 0) then "+" else "".

(** A generic coin is kept: it passes the search and the filter, and it is
    not an entry of id ['vanar-chain'] while the pinned record is shown. *)
Definition keptGeneric (vanryData : option Coin) (searchTerm : string) (filter : Filter)
    (c : Coin) : bool :=
  matchesSearch searchTerm c && vanryMatchesFilter filter c
  && (negb (pinnedShown vanryData searchTerm filter) || notVanar c).

(** The coins whose change is the number [q]. *)
Definition sameChange (q : Q) (c : Coin) : bool :=
  match price_change_percentage_24h c with
  | Some x => Qeq_bool x q
  | None => false
  end.

(** ** [useCoins] (lines 82-104)

    The effect runs [fetchData] once on mount: both requests are started,
    [Promise.all] waits for the two, then the three setters run.  Were one of
    the promises rejected, the [await] would throw and the setters would not
    run. *)

Module useCoins.





End useCoins.

(** ** [PriceChart] (lines 129-162) and the chart area of the modal

    [PriceChart] writes "Loading chart data..." for an empty array and draws
    the line chart otherwise; [CoinDetail] shows its spinner instead while
    [loading] (lines 308-314), and nothing at all without a coin. *)

Inductive ChartArea : Type :=
| Spinner
| LoadingText
| LineChart (data : list coinGeckoAPI.PricePoint).

Definition PriceChart (data : list coinGeckoAPI.PricePoint) : ChartArea :=
  match data with
  | [] => LoadingText
  | _ :: _ => LineChart data
  end.

Definition chartArea (st : DetailState) : option ChartArea :=
  match coin st with
  | Some _ => Some (if loading st then Spinner else PriceChart (chartData st))
  | None => None
  end.

(** The chart source of [CoinDetail] when the requests go through [fetch]. *)
Definition chartOfClient (toLocaleDateString : coinGeckoAPI.Value -> string)
    (fetch : coinGeckoAPI.Fetch) (coinId : string) : list coinGeckoAPI.PricePoint :=
  match coinGeckoAPI.fetchChartData toLocaleDateString fetch coinId with
  | coinGeckoAPI.Normal data => data
  | coinGeckoAPI.Throw _ => []
  end.

(** The ids of the coins selected along a sequence of events, in order. *)
Fixpoint selectedIds (es : list Event) : list string :=
  match es with
  | [] => []
  | SetCoin (Some c) :: es' => id c :: selectedIds es'
  | _ :: es' => selectedIds es'
  end.

(** ** Vocabulary for the client *)

(** The value under key [k] of [v]; [undefined] when [v] is no object or has
    no such key. *)
Definition field (v : coinGeckoAPI.Value) (k : string) : coinGeckoAPI.Value :=
  match v with
  | Some (coinGeckoAPI.JObj props) => coinGeckoAPI.assoc k props
  | _ => None
  end.

(** The record read off a body, path by path. *)
Definition projectVanry (data : coinGeckoAPI.Json) : coinGeckoAPI.VanryData :=
  let d : coinGeckoAPI.Value := Some data in
  coinGeckoAPI.mkVanryData
    (field d "id") (field d "symbol") (field d "name")
    (field (field d "image") "large")
    (field (field (field d "market_data") "current_price") "usd")
    (field (field d "market_data") "price_change_percentage_24h")
    (field (field (field d "market_data") "market_cap") "usd").


(** The parsed values that cannot be iterated. *)
Definition notIterable (j : coinGeckoAPI.Json) : bool :=
  match j with
  | coinGeckoAPI.JArr _ | coinGeckoAPI.JStr _ => false
  | _ => true
  end.

(** Sample networks and a sample chart source for the examples. *)
Definition offline : coinGeckoAPI.Fetch :=
  fun _ => coinGeckoAPI.Throw coinGeckoAPI.NetworkError.

Definition rateLimited : coinGeckoAPI.Fetch :=
  fun _ => coinGeckoAPI.Normal
             (coinGeckoAPI.mkResponse false (coinGeckoAPI.Normal coinGeckoAPI.JNull)).

Definition replying (body : coinGeckoAPI.Json) : coinGeckoAPI.Fetch :=
  fun _ => coinGeckoAPI.Normal (coinGeckoAPI.mkResponse true (coinGeckoAPI.Normal body)).

Definition sampleChart (coinId : string) : list coinGeckoAPI.PricePoint :=
  [coinGeckoAPI.mkPricePoint coinId None None].

(** A sample store: three coin objects and the array [coins] at index 0. *)
Definition sampleHeap : Heap := mkHeap [Beta; Alpha; Pinned] [[0; 1]].

(** * Properties *)

(** ** Strings *)

Lemma startsWith_spec (s sub : string) :
  startsWith s sub = true <-> exists post, s = (sub ++ post)%string.
Proof.
  revert s. induction sub as [|b sub IH]; intros s; simpl.
  - split; [intros _; now exists s | reflexivity].
  - destruct s as [|a s]; simpl.
    + split; [discriminate | intros [post H]; discriminate].
    + rewrite andb_true_iff, IH. split.
      * intros [Hab [post ->]]. apply Ascii.eqb_eq in Hab. subst. now exists post.
      * intros [post H]. injection H as -> ->. split; [apply Ascii.eqb_refl | now exists post].
Qed.

(** [includes] finds exactly the substrings. *)
Lemma includes_spec (s sub : string) :
  includes s sub = true <-> exists pre post, s = (pre ++ sub ++ post)%string.
Proof.
  induction s as [|a s IH].
  - simpl. rewrite orb_false_r, startsWith_spec. split.
    + intros [post H]. now exists EmptyString, post.
    + intros [pre [post H]]. destruct pre; simpl in H; [now exists post | discriminate].
  - cbn [includes]. rewrite orb_true_iff, IH, startsWith_spec. split.
    + intros [[post H] | [pre [post H]]].
      * now exists EmptyString, post.
      * exists (String a pre), post. simpl. now rewrite H.
    + intros [pre [post H]]. destruct pre as [|c pre]; simpl in H.
      * left. now exists post.
      * right. injection H as _ H. now exists pre, post.
Qed.

Lemma includes_empty (s : string) : includes s EmptyString = true.
Proof. destruct s; reflexivity. Qed.

Lemma matchesSearch_empty (c : Coin) : matchesSearch "" c = true.
Proof. unfold matchesSearch. simpl. now rewrite includes_empty. Qed.

(** ** Numbers *)

Lemma Qltb_lt (x y : Q) : Qltb x y = true <-> (x < y)%Q.
Proof.
  unfold Qltb. rewrite Qlt_alt. destruct (x ?= y)%Q; split; congruence.
Qed.

Lemma Qltb_ge (x y : Q) : Qltb x y = false <-> (y <= x)%Q.
Proof.
  rewrite <- not_true_iff_false, Qltb_lt. split.
  - apply Qnot_lt_le.
  - apply Qle_not_lt.
Qed.

Lemma js_gt_0 (n : number) :
  js_gt n (num 0) = true <-> exists q, n = Some q /\ (0 < q)%Q.
Proof.
  destruct n as [q|]; simpl.
  - rewrite Qltb_lt. split; [intros H; now exists q | intros [q' [[= <-] H]]; exact H].
  - split; [discriminate | intros [q [H _]]; discriminate].
Qed.

Lemma js_lt_0 (n : number) :
  js_lt n (num 0) = true <-> exists q, n = Some q /\ (q < 0)%Q.
Proof.
  destruct n as [q|]; simpl.
  - rewrite Qltb_lt. split; [intros H; now exists q | intros [q' [[= <-] H]]; exact H].
  - split; [discriminate | intros [q [H _]]; discriminate].
Qed.

(** ** [Array.prototype.sort] *)

Section SortFacts.
Context {A : Type}.
Variable comparefn : A -> A -> number.

Lemma sort_insert_perm (x : A) (l : list A) :
  Permutation (sort_insert comparefn x l) (x :: l).
Proof.
  induction l as [|y l IH]; simpl; [reflexivity|].
  destruct (js_gt (comparefn x y) (num 0)); [|reflexivity].
  rewrite IH. apply perm_swap.
Qed.

Lemma sort_perm (l : list A) : Permutation (sort comparefn l) l.
Proof.
  induction l as [|x l IH]; simpl; [reflexivity|].
  rewrite sort_insert_perm. now constructor.
Qed.

Lemma In_sort (x : A) (l : list A) : In x (sort comparefn l) <-> In x l.
Proof.
  split; apply Permutation_in; [|symmetry]; apply sort_perm.
Qed.

Lemma Forall_sort (P : A -> Prop) (l : list A) :
  Forall P l -> Forall P (sort comparefn l).
Proof.
  rewrite !List.Forall_forall. intros H x Hx. apply H. now apply In_sort.
Qed.

(** Sortedness: on a domain [P] where the comparator decides a transitive
    relation [before], the result has every element [before] all later ones. *)
Variable P : A -> Prop.
Variable before : A -> A -> Prop.
Hypothesis before_no : forall x y, P x -> P y ->
  js_gt (comparefn x y) (num 0) = false -> before x y.
Hypothesis before_yes : forall x y, P x -> P y ->
  js_gt (comparefn x y) (num 0) = true -> before y x.
Hypothesis before_trans : forall x y z, P x -> P y -> P z ->
  before x y -> before y z -> before x z.

Lemma sort_insert_sorted (x : A) (l : list A) :
  P x -> Forall P l -> StronglySorted before l ->
  StronglySorted before (sort_insert comparefn x l).
Proof.
  intros Px. induction l as [|y l IH]; intros HP Hs; simpl.
  - constructor; constructor.
  - inversion HP as [|? ? Py HPl]; subst.
    inversion Hs as [|? ? Hsl Hyl]; subst.
    destruct (js_gt (comparefn x y) (num 0)) eqn:E.
    + constructor; [now apply IH|].
      rewrite List.Forall_forall. intros z Hz.
      apply (Permutation_in _ (sort_insert_perm x l)) in Hz.
      destruct Hz as [<- | Hz]; [now apply before_yes|].
      rewrite List.Forall_forall in Hyl. now apply Hyl.
    + constructor; [exact Hs|].
      assert (Hxy : before x y) by now apply before_no.
      constructor; [exact Hxy|].
      rewrite List.Forall_forall in *. intros z Hz.
      apply before_trans with y; auto.
Qed.

Lemma sort_sorted (l : list A) :
  Forall P l -> StronglySorted before (sort comparefn l).
Proof.
  induction l as [|x l IH]; intros HP; simpl; [constructor|].
  inversion HP; subst.
  apply sort_insert_sorted; auto. now apply Forall_sort.
Qed.
End SortFacts.

(** Stability: elements the comparator does not tell apart keep their order. *)
Lemma sort_stable {A : Type} (comparefn : A -> A -> number) (p : A -> bool) (l : list A) :
  (forall x y, p x = true -> p y = true -> js_gt (comparefn x y) (num 0) = false) ->
  List.filter p (sort comparefn l) = List.filter p l.
Proof.
  intros Hp.
  assert (Hins : forall x l0,
            List.filter p (sort_insert comparefn x l0) = List.filter p (x :: l0)).
  { intros x l0. induction l0 as [|y l0 IH]; [reflexivity|].
    cbn [sort_insert]. destruct (js_gt (comparefn x y) (num 0)) eqn:E; [|reflexivity].
    cbn [List.filter] in *. rewrite IH.
    destruct (p x) eqn:Ex, (p y) eqn:Ey; try reflexivity.
    rewrite (Hp x y Ex Ey) in E. discriminate. }
  induction l as [|x l IH]; [reflexivity|].
  cbn [sort]. rewrite Hins. cbn [List.filter]. now rewrite IH.
Qed.

Example sort_descending_stable :
  sort (fun a b => js_sub (price_change_percentage_24h b) (price_change_percentage_24h a))
       [Other; Pinned; Alpha; coin4 "q" "q" "Quartz" 2]
  = [Alpha; Pinned; coin4 "q" "q" "Quartz" 2; Other].
Proof. reflexivity. Qed.

Lemma filter_StronglySorted {A : Type} (R : A -> A -> Prop) (p : A -> bool) (l : list A) :
  StronglySorted R l -> StronglySorted R (List.filter p l).
Proof.
  induction 1 as [|x l Hs IH Hx]; simpl; [constructor|].
  destruct (p x); [|exact IH].
  constructor; [exact IH|].
  rewrite List.Forall_forall in *. intros y Hy.
  apply List.filter_In in Hy. now apply Hx.
Qed.

(** ** The filter/merge engine *)

(** The switch keeps exactly the coins the filter predicate accepts. *)
Lemma applyFilter_In (f : Filter) (l : list Coin) (c : Coin) :
  In c (applyFilter f l) <-> In c l /\ vanryMatchesFilter f c = true.
Proof.
  destruct f; simpl.
  - tauto.
  - rewrite In_sort. apply List.filter_In.
  - rewrite In_sort. apply List.filter_In.
Qed.

Lemma searchedAndFiltered_In (coins : list Coin) (s : string) (f : Filter) (c : Coin) :
  In c (searchedAndFiltered coins s f) <->
  In c coins /\ matchesSearch s c = true /\ vanryMatchesFilter f c = true.
Proof.
  unfold searchedAndFiltered. rewrite applyFilter_In, List.filter_In. tauto.
Qed.

(** The two shapes of the result. *)
Lemma merge_shown (coins : list Coin) (v : Coin) (s : string) (f : Filter) :
  pinnedMatches v s f = true ->
  filteredAndSortedCoins coins (Some v) s f
  = v :: List.filter notVanar (searchedAndFiltered coins s f).
Proof.
  unfold filteredAndSortedCoins, pinnedMatches, searchedAndFiltered.
  cbv zeta. now intros ->.
Qed.

Lemma merge_hidden (coins : list Coin) (v : Coin) (s : string) (f : Filter) :
  pinnedMatches v s f = false ->
  filteredAndSortedCoins coins (Some v) s f = searchedAndFiltered coins s f.
Proof.
  unfold filteredAndSortedCoins, pinnedMatches, searchedAndFiltered.
  cbv zeta. now intros ->.
Qed.

Lemma merge_absent (coins : list Coin) (s : string) (f : Filter) :
  filteredAndSortedCoins coins None s f = searchedAndFiltered coins s f.
Proof. reflexivity. Qed.

Lemma merge_split (coins : list Coin) (vanryData : option Coin) (s : string) (f : Filter) :
  filteredAndSortedCoins coins vanryData s f
  = pinnedPart vanryData s f ++ nonPinnedPart coins vanryData s f.
Proof.
  unfold pinnedPart, nonPinnedPart, pinnedShown.
  destruct vanryData as [v|].
  - destruct (pinnedMatches v s f) eqn:E.
    + now rewrite merge_shown.
    + now rewrite merge_hidden.
  - now rewrite merge_absent.
Qed.

Lemma nonPinnedPart_In (coins : list Coin) (vanryData : option Coin)
    (s : string) (f : Filter) (c : Coin) :
  In c (nonPinnedPart coins vanryData s f) -> In c (searchedAndFiltered coins s f).
Proof.
  unfold nonPinnedPart. destruct (pinnedShown vanryData s f); [|auto].
  intros H. now apply List.filter_In in H.
Qed.

(** Whatever is in the result passes the search and the filter. *)
Lemma merge_In_matches (coins : list Coin) (vanryData : option Coin)
    (s : string) (f : Filter) (c : Coin) :
  In c (filteredAndSortedCoins coins vanryData s f) ->
  matchesSearch s c = true /\ vanryMatchesFilter f c = true.
Proof.
  rewrite merge_split, in_app_iff. intros [H | H].
  - destruct vanryData as [v|]; simpl in H; [|contradiction].
    destruct (pinnedMatches v s f) eqn:E; simpl in H; [|contradiction].
    destruct H as [<- | []]. now apply andb_true_iff in E.
  - apply nonPinnedPart_In, searchedAndFiltered_In in H. tauto.
Qed.

Lemma gainers_sorted (l : list Coin) :
  Forall isGainer (applyFilter gainers l) /\
  StronglySorted descending (applyFilter gainers l).
Proof.
  assert (HF : Forall isGainer
    (List.filter (fun coin => js_gt (price_change_percentage_24h coin) (num 0)) l)).
  { rewrite List.Forall_forall. intros c Hc. apply List.filter_In in Hc.
    now apply js_gt_0. }
  simpl. split; [now apply Forall_sort|].
  apply sort_sorted with (P := isGainer); [| | |exact HF].
  - intros x y [qx [Hx _]] [qy [Hy _]]. rewrite Hx, Hy. simpl.
    rewrite Qltb_ge. intros H. exists qx, qy. repeat split; auto. lra.
  - intros x y [qx [Hx _]] [qy [Hy _]]. rewrite Hx, Hy. simpl.
    rewrite Qltb_lt. intros H. exists qy, qx. repeat split; auto. lra.
  - intros x y z _ _ _ [a [b [Ha [Hb Hab]]]] [b' [c [Hb' [Hc Hbc]]]].
    rewrite Hb in Hb'. injection Hb' as <-.
    exists a, c. repeat split; auto. lra.
Qed.

Lemma losers_sorted (l : list Coin) :
  Forall isLoser (applyFilter losers l) /\
  StronglySorted ascending (applyFilter losers l).
Proof.
  assert (HF : Forall isLoser
    (List.filter (fun coin => js_lt (price_change_percentage_24h coin) (num 0)) l)).
  { rewrite List.Forall_forall. intros c Hc. apply List.filter_In in Hc.
    now apply js_lt_0. }
  simpl. split; [now apply Forall_sort|].
  apply sort_sorted with (P := isLoser); [| | |exact HF].
  - intros x y [qx [Hx _]] [qy [Hy _]]. rewrite Hx, Hy. simpl.
    rewrite Qltb_ge. intros H. exists qx, qy. repeat split; auto. lra.
  - intros x y [qx [Hx _]] [qy [Hy _]]. rewrite Hx, Hy. simpl.
    rewrite Qltb_lt. intros H. exists qy, qx. repeat split; auto. lra.
  - intros x y z _ _ _ [a [b [Ha [Hb Hab]]]] [b' [c [Hb' [Hc Hbc]]]].
    rewrite Hb in Hb'. injection Hb' as <-.
    exists a, c. repeat split; auto. lra.
Qed.

Lemma Forall_filter_keep {A : Type} (P : A -> Prop) (p : A -> bool) (l : list A) :
  Forall P l -> Forall P (List.filter p l).
Proof.
  rewrite !List.Forall_forall. intros H x Hx. apply List.filter_In in Hx. now apply H.
Qed.

(** C1, as stated, fails: the pinned record [Pinned] matches, yet [Other],
    which shares its id ["p"], stays in the result; the code removes the
    entries of id ['vanar-chain'], whatever the id of the pinned record. *)
Lemma pinned_dedup_by_own_id_fails :
  pinnedMatches Pinned "" all = true /\
  id Other = id Pinned /\
  filteredAndSortedCoins [Other] (Some Pinned) "" all = [Pinned; Other] /\
  filteredAndSortedCoins [Other] (Some Pinned) "" all
  <> Pinned :: List.filter (fun c => negb (String.eqb (id c) (id Pinned)))
                           (searchedAndFiltered [Other] "" all).
Proof. repeat split. discriminate. Qed.

(** C1 (amended): the result holds the pinned record if and only if the
    record, on its own, passes the search and the filter; when it passes, the
    result is the record followed by the searched and filtered list without its
    entries of id ['vanar-chain']; when it does not, the result is the searched
    and filtered list and the record is not in it; a pinned record with a
    positive change is absent under [losers] for every search term. *)
Theorem pinned_visibility (coins : list Coin) (v : Coin) (s : string) (f : Filter) :
  (In v (filteredAndSortedCoins coins (Some v) s f) <-> pinnedMatches v s f = true) /\
  (pinnedMatches v s f = true ->
     filteredAndSortedCoins coins (Some v) s f
     = v :: List.filter (fun c => negb (String.eqb (id c) "vanar-chain"))
                        (searchedAndFiltered coins s f)) /\
  (pinnedMatches v s f = false ->
     filteredAndSortedCoins coins (Some v) s f = searchedAndFiltered coins s f /\
     ~ In v (filteredAndSortedCoins coins (Some v) s f)) /\
  (isGainer v -> forall s', ~ In v (filteredAndSortedCoins coins (Some v) s' losers)).
Proof.
  assert (Hin : forall s0 f0, In v (filteredAndSortedCoins coins (Some v) s0 f0) ->
                              pinnedMatches v s0 f0 = true).
  { intros s0 f0 H. apply merge_In_matches in H. now apply andb_true_iff. }
  repeat split.
  - apply Hin.
  - intros H. rewrite merge_shown by exact H. now left.
  - intros H. now rewrite merge_shown.
  - now apply merge_hidden.
  - intros Hv. apply Hin in Hv. congruence.
  - intros [q [Hq Hpos]] s' Hv. apply Hin in Hv.
    apply andb_true_iff in Hv. destruct Hv as [_ Hv]. simpl in Hv.
    apply js_lt_0 in Hv. destruct Hv as [q' [Hq' Hneg]].
    rewrite Hq in Hq'. injection Hq' as <-. lra.
Qed.

Lemma pinned_visibility_witness :
  filteredAndSortedCoins [Alpha; Vanar] (Some Pinned) "" gainers = [Pinned; Alpha] /\
  ~ In Pinned (filteredAndSortedCoins [Alpha; Beta] (Some Pinned) "" losers).
Proof.
  split.
  - exact (proj1 (proj2 (pinned_visibility [Alpha; Vanar] Pinned "" gainers)) eq_refl).
  - apply (proj2 (proj2 (proj2 (pinned_visibility [Alpha; Beta] Pinned "" losers)))).
    exists 2%Q. split; [reflexivity | reflexivity].
Defined.

(** When the pinned record carries the id ['vanar-chain'], which is what the
    service answers for that address, removing the entries of that id is
    removing the entries that share the id of the pinned record. *)
Lemma dedup_by_own_id_when_vanar (v : Coin) (l : list Coin) :
  id v = "vanar-chain" ->
  List.filter notVanar l = List.filter (fun c => negb (String.eqb (id c) (id v))) l.
Proof.
  intros ->. reflexivity.
Qed.

(** C2: under [gainers] the result is the prepended pinned record, if any,
    followed by coins that all have a positive change and stand in descending
    order of it; under [losers], by coins that all have a negative change and
    stand in ascending order. *)
Theorem gainers_losers_filtered_and_sorted
    (coins : list Coin) (vanryData : option Coin) (s : string) :
  (exists rest,
     filteredAndSortedCoins coins vanryData s gainers
     = pinnedPart vanryData s gainers ++ rest /\
     Forall isGainer rest /\ StronglySorted descending rest) /\
  (exists rest,
     filteredAndSortedCoins coins vanryData s losers
     = pinnedPart vanryData s losers ++ rest /\
     Forall isLoser rest /\ StronglySorted ascending rest).
Proof.
  split.
  - exists (nonPinnedPart coins vanryData s gainers).
    split; [apply merge_split|].
    destruct (gainers_sorted (List.filter (matchesSearch s) coins)) as [HF HS].
    unfold nonPinnedPart, searchedAndFiltered.
    destruct (pinnedShown vanryData s gainers); split; auto.
    + now apply Forall_filter_keep.
    + now apply filter_StronglySorted.
  - exists (nonPinnedPart coins vanryData s losers).
    split; [apply merge_split|].
    destruct (losers_sorted (List.filter (matchesSearch s) coins)) as [HF HS].
    unfold nonPinnedPart, searchedAndFiltered.
    destruct (pinnedShown vanryData s losers); split; auto.
    + now apply Forall_filter_keep.
    + now apply filter_StronglySorted.
Qed.

(** C3: every coin of the result, the pinned one included, has a name or a
    symbol that contains the search term, case put aside. *)
Theorem result_matches_search
    (coins : list Coin) (vanryData : option Coin) (s : string) (f : Filter) :
  Forall (fun c => containsCI (name c) s \/ containsCI (symbol c) s)
         (filteredAndSortedCoins coins vanryData s f).
Proof.
  rewrite List.Forall_forall. intros c Hc.
  apply merge_In_matches in Hc. destruct Hc as [Hc _].
  unfold matchesSearch in Hc. apply orb_true_iff in Hc.
  destruct Hc as [Hc | Hc]; apply includes_spec in Hc; [left | right]; exact Hc.
Qed.

(** C4: whenever the pinned record is in the result, it is the element at
    index 0, whichever filter sorted the rest. *)
Theorem pinned_at_index_0 (coins : list Coin) (v : Coin) (s : string) (f : Filter) :
  In v (filteredAndSortedCoins coins (Some v) s f) ->
  nth_error (filteredAndSortedCoins coins (Some v) s f) 0 = Some v.
Proof.
  intros H. apply merge_In_matches in H. apply andb_true_iff in H.
  now rewrite merge_shown.
Qed.

Lemma pinned_at_index_0_witness :
  nth_error (filteredAndSortedCoins [Alpha; Beta] (Some Pinned) "" gainers) 0 = Some Pinned.
Proof.
  apply (pinned_at_index_0 [Alpha; Beta] Pinned "" gainers).
  simpl. left. reflexivity.
Defined.

(** C5, as stated, fails: with the pinned record [Pinned] of id ["p"], the
    generic coin [Vanar] does not share that id and is removed all the same. *)
Lemma empty_search_dedup_by_own_id_fails :
  filteredAndSortedCoins [Alpha; Vanar] (Some Pinned) "" all = [Pinned; Alpha] /\
  Pinned :: List.filter (fun c => negb (String.eqb (id c) (id Pinned))) [Alpha; Vanar]
  = [Pinned; Alpha; Vanar] /\
  filteredAndSortedCoins [Alpha; Vanar] (Some Pinned) "" all
  <> Pinned :: List.filter (fun c => negb (String.eqb (id c) (id Pinned))) [Alpha; Vanar].
Proof. repeat split. discriminate. Qed.

(** C5 (amended): with an empty search term and the filter [all], the result
    is the pinned record, when there is one, followed by the generic coins in
    their original order without those of id ['vanar-chain']; with no pinned
    record it is the generic list itself. *)
Theorem empty_search_all (coins : list Coin) (v : Coin) :
  filteredAndSortedCoins coins (Some v) "" all
  = v :: List.filter (fun c => negb (String.eqb (id c) "vanar-chain")) coins /\
  filteredAndSortedCoins coins None "" all = coins.
Proof.
  assert (Hid : List.filter (matchesSearch "") coins = coins).
  { induction coins as [|c l IH]; simpl; [reflexivity|].
    rewrite matchesSearch_empty. now rewrite IH. }
  split.
  - rewrite merge_shown.
    + unfold searchedAndFiltered. simpl applyFilter. now rewrite Hid.
    + unfold pinnedMatches. now rewrite matchesSearch_empty.
  - rewrite merge_absent. unfold searchedAndFiltered. simpl applyFilter. exact Hid.
Qed.

(** C6: the scenario of the specification yields [[Pinned, Alpha]]: [Beta]
    is left out, [Pinned] is in because [2 > 0]. *)
Theorem scenario_gainers :
  filteredAndSortedCoins [Alpha; Beta] (Some Pinned) "" gainers = [Pinned; Alpha] /\
  ~ In Beta (filteredAndSortedCoins [Alpha; Beta] (Some Pinned) "" gainers) /\
  js_gt (price_change_percentage_24h Pinned) (num 0) = true.
Proof.
  repeat split. simpl. intros [H | [H | []]]; discriminate.
Qed.

(** C10, as stated, fails: [Vanar] has a change of exactly [0] and passes
    the empty search, yet under [all] it is not in the result, and nothing in
    the result has a change of [0]: the shown pinned record displaces the
    entries of id ['vanar-chain']. *)
Lemma zero_change_coin_displaced :
  price_change_percentage_24h Vanar = Some 0%Q /\
  In Vanar [Alpha; Vanar] /\
  matchesSearch "" Vanar = true /\
  filteredAndSortedCoins [Alpha; Vanar] (Some VanarPinned) "" all = [VanarPinned; Alpha] /\
  ~ In Vanar (filteredAndSortedCoins [Alpha; Vanar] (Some VanarPinned) "" all) /\
  Forall (fun c => js_gt (price_change_percentage_24h c) (num 0) = true)
         (filteredAndSortedCoins [Alpha; Vanar] (Some VanarPinned) "" all).
Proof.
  repeat split; auto.
  - right. now left.
  - simpl. intros [H | [H | []]]; discriminate.
  - repeat constructor.
Qed.

(** C10 (amended): a coin whose change is exactly [0] is in the result under
    neither [gainers] nor [losers]; under [all] a generic coin with such a
    change that passes the search is in the result unless its id is
    ['vanar-chain'] and the pinned record is shown; a pinned record with
    such a change is in the result under [all] exactly when it passes the
    search. *)
Theorem zero_change (coins : list Coin) (vanryData : option Coin) (s : string)
    (c : Coin) (q : Q) :
  price_change_percentage_24h c = Some q -> (q == 0)%Q ->
  ~ In c (filteredAndSortedCoins coins vanryData s gainers) /\
  ~ In c (filteredAndSortedCoins coins vanryData s losers) /\
  (In c coins -> matchesSearch s c = true ->
   id c <> "vanar-chain" \/ pinnedShown vanryData s all = false ->
   In c (filteredAndSortedCoins coins vanryData s all)) /\
  (In c (filteredAndSortedCoins coins (Some c) s all) <-> matchesSearch s c = true).
Proof.
  intros Hq H0. repeat split.
  - intros H. apply merge_In_matches in H. destruct H as [_ H]. simpl in H.
    apply js_gt_0 in H. destruct H as [q' [Hq' Hpos]].
    rewrite Hq in Hq'. injection Hq' as <-. lra.
  - intros H. apply merge_In_matches in H. destruct H as [_ H]. simpl in H.
    apply js_lt_0 in H. destruct H as [q' [Hq' Hneg]].
    rewrite Hq in Hq'. injection Hq' as <-. lra.
  - intros Hin Hs Hkeep. rewrite merge_split. apply in_or_app. right.
    assert (HX : In c (searchedAndFiltered coins s all)).
    { apply searchedAndFiltered_In. auto. }
    unfold nonPinnedPart. destruct (pinnedShown vanryData s all); [|exact HX].
    apply List.filter_In. split; [exact HX|].
    destruct Hkeep as [Hid | Hf]; [|discriminate].
    unfold notVanar. apply negb_true_iff. now apply String.eqb_neq.
  - intros H. now apply merge_In_matches in H.
  - intros H. rewrite merge_shown; [now left|].
    unfold pinnedMatches. now rewrite H.
Qed.

Lemma zero_change_witness :
  ~ In Vanar (filteredAndSortedCoins [Alpha; Vanar] (Some Pinned) "" gainers) /\
  In Vanar (filteredAndSortedCoins [Alpha; Vanar] None "" all).
Proof.
  pose proof (zero_change [Alpha; Vanar] (Some Pinned) "" Vanar 0%Q
                eq_refl (Qeq_refl 0%Q)) as H1.
  pose proof (zero_change [Alpha; Vanar] None "" Vanar 0%Q
                eq_refl (Qeq_refl 0%Q)) as H2.
  split.
  - exact (proj1 H1).
  - apply (proj1 (proj2 (proj2 H2))).
    + right. left. reflexivity.
    + reflexivity.
    + right. reflexivity.
Defined.

(** ** The market-data client *)

Lemma try_catch_total {A : Type} (body : coinGeckoAPI.Completion A) (fallback : A) :
  exists v, coinGeckoAPI.try_catch body (fun _ => coinGeckoAPI.Normal fallback)
            = coinGeckoAPI.Normal v.
Proof.
  destruct body as [v | e]; simpl; eauto.
Qed.

(** C7: when the request fails in transport or comes back with a status that
    is not a success, [fetchCoins] yields the empty array, [fetchVanryData]
    yields [null] and [fetchChartData] yields the empty array; and whatever
    the network does, each of the three completes with a value and throws
    nothing to its caller. *)
Theorem client_fails_soft (toLocaleDateString : coinGeckoAPI.Value -> string)
    (fetch : coinGeckoAPI.Fetch) (coinId : string) :
  (coinGeckoAPI.failed (fetch coinGeckoAPI.coinsUrl) ->
   coinGeckoAPI.fetchCoins fetch = coinGeckoAPI.Normal (coinGeckoAPI.JArr [])) /\
  (coinGeckoAPI.failed (fetch coinGeckoAPI.vanryUrl) ->
   coinGeckoAPI.fetchVanryData fetch = coinGeckoAPI.Normal None) /\
  (coinGeckoAPI.failed (fetch (coinGeckoAPI.chartUrl coinId)) ->
   coinGeckoAPI.fetchChartData toLocaleDateString fetch coinId = coinGeckoAPI.Normal []) /\
  (exists v, coinGeckoAPI.fetchCoins fetch = coinGeckoAPI.Normal v) /\
  (exists v, coinGeckoAPI.fetchVanryData fetch = coinGeckoAPI.Normal v) /\
  (exists v, coinGeckoAPI.fetchChartData toLocaleDateString fetch coinId
             = coinGeckoAPI.Normal v).
Proof.
  assert (Hfail : forall (A : Type) (c : coinGeckoAPI.Completion coinGeckoAPI.Response)
            (message : string)
            (k : coinGeckoAPI.Response -> coinGeckoAPI.Completion A) (fallback : A),
            coinGeckoAPI.failed c ->
            coinGeckoAPI.try_catch
              (response ← c;
               if negb (coinGeckoAPI.ok response)
               then coinGeckoAPI.Throw (coinGeckoAPI.ErrorOf message)
               else k response)
              (fun _ => coinGeckoAPI.Normal fallback)
            = coinGeckoAPI.Normal fallback).
  { intros A [response | e] message k fallback H; simpl in H.
    - unfold mbind, coinGeckoAPI.Completion_bind. now rewrite H.
    - reflexivity. }
  repeat split.
  - apply Hfail.
  - apply Hfail.
  - apply Hfail.
  - apply try_catch_total.
  - apply try_catch_total.
  - apply try_catch_total.
Qed.

Lemma client_fails_soft_witness :
  coinGeckoAPI.fetchCoins offline = coinGeckoAPI.Normal (coinGeckoAPI.JArr []) /\
  coinGeckoAPI.fetchVanryData rateLimited = coinGeckoAPI.Normal None /\
  coinGeckoAPI.fetchChartData (fun _ => "") rateLimited "bitcoin" = coinGeckoAPI.Normal [].
Proof.
  split; [|split].
  - exact (proj1 (client_fails_soft (fun _ => "") offline "bitcoin") I).
  - exact (proj1 (proj2 (client_fails_soft (fun _ => "") rateLimited "bitcoin")) eq_refl).
  - exact (proj1 (proj2 (proj2 (client_fails_soft (fun _ => "") rateLimited "bitcoin")))
             eq_refl).
Defined.

(** The client on a well-formed and on an ill-formed chart body. *)
Example fetchChartData_two_points :
  coinGeckoAPI.fetchChartData (fun _ => "day")
    (replying (coinGeckoAPI.JObj
       [("prices", coinGeckoAPI.JArr
          [coinGeckoAPI.JArr [coinGeckoAPI.JNum 1; coinGeckoAPI.JNum 10];
           coinGeckoAPI.JArr [coinGeckoAPI.JNum 2; coinGeckoAPI.JNum 20]])]))
    "bitcoin"
  = coinGeckoAPI.Normal
      [coinGeckoAPI.mkPricePoint "day" (Some (coinGeckoAPI.JNum 10)) (Some (coinGeckoAPI.JNum 1));
       coinGeckoAPI.mkPricePoint "day" (Some (coinGeckoAPI.JNum 20)) (Some (coinGeckoAPI.JNum 2))].
Proof. reflexivity. Qed.

Example fetchChartData_no_prices :
  coinGeckoAPI.fetchChartData (fun _ => "day")
    (replying (coinGeckoAPI.JObj [("error", coinGeckoAPI.JStr "coin not found")])) "nope"
  = coinGeckoAPI.Normal [].
Proof. reflexivity. Qed.

Example fetchVanryData_projects :
  coinGeckoAPI.fetchVanryData
    (replying (coinGeckoAPI.JObj
       [("id", coinGeckoAPI.JStr "vanar-chain");
        ("symbol", coinGeckoAPI.JStr "vanry");
        ("name", coinGeckoAPI.JStr "Vanar Chain");
        ("market_data", coinGeckoAPI.JObj
           [("price_change_percentage_24h", coinGeckoAPI.JNum 2)])]))
  = coinGeckoAPI.Normal (Some
      (coinGeckoAPI.mkVanryData
         (Some (coinGeckoAPI.JStr "vanar-chain")) (Some (coinGeckoAPI.JStr "vanry"))
         (Some (coinGeckoAPI.JStr "Vanar Chain")) None None
         (Some (coinGeckoAPI.JNum 2)) None)).
Proof. reflexivity. Qed.

(** ** The chart state of [CoinDetail] *)

(** The continuation of [fetchChart] has no condition on the selected coin:
    a resolution that is due always overwrites the chart. *)
Lemma resolve_overwrites (chartOf : string -> list coinGeckoAPI.PricePoint)
    (st st' : DetailState) (i : string) :
  step chartOf st (Resolve i) = Some st' ->
  coin st' = coin st /\ chartData st' = chartOf i /\ loading st' = false /\
  inFlight st' = removeOne i (inFlight st).
Proof.
  simpl. destruct (existsb (String.eqb i) (inFlight st)); [|discriminate].
  intros [= <-]. auto.
Qed.

(** C8, as stated, fails: [Alpha] is selected, then [Beta] before the chart
    of [Alpha] has arrived; the chart of [Beta] arrives first and the late
    chart of [Alpha] is then drawn under [Beta]. *)
Lemma stale_chart_is_applied :
  exists st,
    run sampleChart initialDetail
        [SetCoin (Some Alpha); SetCoin (Some Beta); Resolve "b"; Resolve "a"] = Some st /\
    coin st = Some Beta /\ inFlight st = [] /\
    shownChart st = Some (sampleChart "a") /\
    shownChart st <> Some (sampleChart "b").
Proof.
  eexists. repeat split. simpl. discriminate.
Qed.

(** C8 (amended): with [X] selected and then [Y] before the chart of [X] has
    arrived, both results are applied as they arrive, whichever coin is
    selected.  If the chart of [X] arrives first it is drawn under [Y] until
    the chart of [Y] arrives, and the view ends with the chart of [Y]; if it
    arrives last, the view ends with the chart of [X] under [Y]. *)
Theorem chart_shows_last_arrival (chartOf : string -> list coinGeckoAPI.PricePoint)
    (X Y : Coin) :
  (exists st,
     run chartOf initialDetail [SetCoin (Some X); SetCoin (Some Y); Resolve (id X)]
     = Some st /\
     coin st = Some Y /\ shownChart st = Some (chartOf (id X))) /\
  (exists st,
     run chartOf initialDetail
         [SetCoin (Some X); SetCoin (Some Y); Resolve (id X); Resolve (id Y)]
     = Some st /\
     coin st = Some Y /\ inFlight st = [] /\ shownChart st = Some (chartOf (id Y))) /\
  (exists st,
     run chartOf initialDetail
         [SetCoin (Some X); SetCoin (Some Y); Resolve (id Y); Resolve (id X)]
     = Some st /\
     coin st = Some Y /\ inFlight st = [] /\ shownChart st = Some (chartOf (id X))).
Proof.
  repeat split.
  - simpl. rewrite String.eqb_refl. simpl. eexists. repeat split.
  - simpl. rewrite !String.eqb_refl. simpl. rewrite String.eqb_refl. simpl.
    eexists. repeat split.
  - simpl. rewrite String.eqb_refl, orb_true_r.
    destruct (String.eqb (id Y) (id X)) eqn:E; simpl.
    + apply String.eqb_eq in E. rewrite E, String.eqb_refl. simpl.
      eexists. repeat split.
    + rewrite !String.eqb_refl. simpl. eexists. repeat split.
Qed.

(** ** The engine over the store *)

Lemma readAll_deref (l : list loc) (h : Heap) :
  readAll l h = match deref (objects h) l with
                | Some cs => Some (cs, h)
                | None => None
                end.
Proof.
  induction l as [|r l IH]; cbn [readAll deref]; [reflexivity|].
  unfold bind, readObj. destruct (objects h !! r) as [c|]; [|reflexivity].
  rewrite IH. now destruct (deref (objects h) l).
Qed.

Lemma deref_total (objs : list Coin) (l : list loc) :
  Forall (fun r => (r < length objs)%nat) l -> exists cs, deref objs l = Some cs.
Proof.
  induction 1 as [|r l Hr _ [cs IH]]; cbn [deref]; [eauto|].
  destruct (lookup_lt_is_Some_2 objs r Hr) as [c ->]. rewrite IH. eauto.
Qed.

Lemma deref_fst (objs : list Coin) (l : list loc) (cs : list (loc * Coin)) :
  deref objs l = Some cs -> map fst cs = l.
Proof.
  revert cs. induction l as [|r l IH]; cbn [deref]; intros cs.
  - now intros [= <-].
  - destruct (objs !! r) as [c|]; [|discriminate].
    destruct (deref objs l) as [cs'|]; [|discriminate].
    intros [= <-]. cbn [map fst]. f_equal. now apply IH.
Qed.

Lemma deref_lookup (objs : list Coin) (l : list loc) (cs : list (loc * Coin)) :
  deref objs l = Some cs -> Forall (fun rc => objs !! fst rc = Some (snd rc)) cs.
Proof.
  revert cs. induction l as [|r l IH]; cbn [deref]; intros cs.
  - intros [= <-]. constructor.
  - destruct (objs !! r) as [c|] eqn:E; [|discriminate].
    destruct (deref objs l) as [cs'|]; [|discriminate].
    intros [= <-]. constructor; [exact E | now apply IH].
Qed.

Lemma deref_pairs (objs : list Coin) (cs : list (loc * Coin)) :
  Forall (fun rc => objs !! fst rc = Some (snd rc)) cs ->
  deref objs (map fst cs) = Some cs.
Proof.
  induction 1 as [|[r c] cs Hrc _ IH]; cbn [map fst deref]; [reflexivity|].
  cbn [fst snd] in Hrc. now rewrite Hrc, IH.
Qed.

Lemma map_filter_snd {A B : Type} (p : B -> bool) (l : list (A * B)) :
  map snd (List.filter (fun rc => p (snd rc)) l) = List.filter p (map snd l).
Proof.
  induction l as [|x l IH]; simpl; [reflexivity|].
  destruct (p (snd x)); simpl; now rewrite IH.
Qed.

Lemma map_sort_insert {A B : Type} (g : A -> B) (cmp : B -> B -> number)
    (x : A) (l : list A) :
  map g (sort_insert (fun a b => cmp (g a) (g b)) x l) = sort_insert cmp (g x) (map g l).
Proof.
  induction l as [|y l IH]; simpl; [reflexivity|].
  destruct (js_gt (cmp (g x) (g y)) (num 0)); simpl; now rewrite ?IH.
Qed.

Lemma map_sort {A B : Type} (g : A -> B) (cmp : B -> B -> number) (l : list A) :
  map g (sort (fun a b => cmp (g a) (g b)) l) = sort cmp (map g l).
Proof.
  induction l as [|x l IH]; simpl; [reflexivity|].
  now rewrite map_sort_insert, IH.
Qed.

(** A store with no dangling reference gives every array its contents. *)
Lemma wellFormed_contents (h : Heap) (a : loc) :
  wellFormed h -> (a < length (arrays h))%nat -> exists cs, contents h a = Some cs.
Proof.
  intros Hwf Ha. unfold contents.
  destruct (lookup_lt_is_Some_2 _ _ Ha) as [l Hl]. rewrite Hl.
  unfold wellFormed in Hwf. rewrite List.Forall_forall in Hwf.
  assert (Hin : In l (arrays h)).
  { apply list_elem_of_In. apply list_elem_of_lookup. eauto. }
  destruct (deref_total _ _ (Hwf l Hin)) as [cs ->]. eauto.
Qed.

Lemma frame_refl (n : nat) (h : Heap) : frame n h h.
Proof. repeat split; auto. Qed.

Lemma frame_trans (n : nat) (h1 h2 h3 : Heap) :
  frame n h1 h2 -> frame n h2 h3 -> frame n h1 h3.
Proof.
  intros (Ho & Hl & Ha) (Ho' & Hl' & Ha'). repeat split.
  - congruence.
  - lia.
  - intros a Hlt. rewrite Ha', Ha; auto.
Qed.

Lemma frame_contents (n : nat) (h h' : Heap) (a : loc) :
  frame n h h' -> (a < n)%nat -> contents h' a = contents h a.
Proof.
  intros (Ho & _ & Ha) Hlt. unfold contents. now rewrite Ho, Ha.
Qed.

Lemma contents_inv (h : Heap) (a : loc) (cs : list Coin) :
  contents h a = Some cs ->
  exists l ps, arrays h !! a = Some l /\ deref (objects h) l = Some ps /\
               cs = map snd ps.
Proof.
  unfold contents. destruct (arrays h !! a) as [l|]; [|discriminate].
  destruct (deref (objects h) l) as [ps|] eqn:E; [|discriminate].
  intros [= <-]. eauto.
Qed.

Lemma contents_alloc (objs : list Coin) (arrs : list (list loc))
    (ps : list (loc * Coin)) :
  Forall (fun rc => objs !! fst rc = Some (snd rc)) ps ->
  contents (mkHeap objs (arrs ++ [map fst ps])) (length arrs) = Some (map snd ps).
Proof.
  intros H. unfold contents. cbn [arrays objects].
  rewrite list_lookup_middle by reflexivity. now rewrite deref_pairs.
Qed.

Lemma frame_alloc (n : nat) (h : Heap) (l : list loc) :
  (n <= length (arrays h))%nat ->
  frame n h (mkHeap (objects h) (arrays h ++ [l])).
Proof.
  intros Hn. repeat split; cbn [arrays objects].
  - rewrite length_app. lia.
  - intros a Ha. apply lookup_app_l. lia.
Qed.

Lemma Forall_pairs_filter (objs : list Coin) (p : loc * Coin -> bool)
    (ps : list (loc * Coin)) :
  Forall (fun rc => objs !! fst rc = Some (snd rc)) ps ->
  Forall (fun rc => objs !! fst rc = Some (snd rc)) (List.filter p ps).
Proof. apply Forall_filter_keep. Qed.

(** [filter] leaves the store as it was and adds one array. *)
Lemma Array_filter_ok (p : Coin -> bool) (a : loc) (h : Heap) (cs : list Coin) (n : nat) :
  contents h a = Some cs -> (n <= length (arrays h))%nat ->
  exists h',
    Array_filter p a h = Some (length (arrays h), h') /\
    frame n h h' /\
    contents h' (length (arrays h)) = Some (List.filter p cs).
Proof.
  intros Hc Hn. destruct (contents_inv _ _ _ Hc) as (l & ps & Hl & Hd & ->).
  unfold Array_filter, bind, readArr. rewrite Hl, readAll_deref, Hd.
  unfold allocArr. eexists. split; [reflexivity|]. split.
  - now apply frame_alloc.
  - rewrite <- map_filter_snd. apply contents_alloc.
    apply Forall_pairs_filter. now apply deref_lookup with l.
Qed.

(** [sort] rewrites the one array it is called on. *)
Lemma Array_sort_ok (cmp : Coin -> Coin -> number) (a : loc) (h : Heap)
    (cs : list Coin) (n : nat) :
  contents h a = Some cs -> (n <= a)%nat ->
  exists h',
    Array_sort cmp a h = Some (a, h') /\
    frame n h h' /\
    contents h' a = Some (sort cmp cs).
Proof.
  intros Hc Hn. destruct (contents_inv _ _ _ Hc) as (l & ps & Hl & Hd & ->).
  assert (Ha : (a < length (arrays h))%nat) by now apply lookup_lt_Some with l.
  unfold Array_sort, bind, readArr, writeArr. rewrite Hl, readAll_deref, Hd.
  apply Nat.ltb_lt in Ha as Hb. rewrite Hb. unfold ret.
  eexists. split; [reflexivity|]. split.
  - repeat split; cbn [arrays objects].
    + rewrite length_insert. lia.
    + intros b Hlt. apply list_lookup_insert_ne. lia.
  - unfold contents. cbn [arrays objects].
    rewrite list_lookup_insert_eq by exact Ha.
    rewrite deref_pairs.
    + now rewrite map_sort.
    + apply Forall_sort. now apply deref_lookup with l.
Qed.

(** The spread [[v, ...a]] adds one array. *)
Lemma Array_spread_cons_ok (v a : loc) (h : Heap) (c : Coin) (cs : list Coin) (n : nat) :
  contents h a = Some cs -> objects h !! v = Some c -> (n <= length (arrays h))%nat ->
  exists h',
    Array_spread_cons v a h = Some (length (arrays h), h') /\
    frame n h h' /\
    contents h' (length (arrays h)) = Some (c :: cs).
Proof.
  intros Hc Hv Hn. destruct (contents_inv _ _ _ Hc) as (l & ps & Hl & Hd & ->).
  unfold Array_spread_cons, bind, readArr, allocArr. rewrite Hl.
  eexists. split; [reflexivity|]. split.
  - now apply frame_alloc.
  - rewrite <- (deref_fst _ _ _ Hd).
    change (contents (mkHeap (objects h) (arrays h ++ [map fst ((v, c) :: ps)]))
                     (length (arrays h)) = Some (map snd ((v, c) :: ps))).
    apply contents_alloc. constructor; [exact Hv | now apply deref_lookup with l].
Qed.

Lemma contents_lt (h : Heap) (a : loc) (cs : list Coin) :
  contents h a = Some cs -> (a < length (arrays h))%nat.
Proof.
  intros Hc. destruct (contents_inv _ _ _ Hc) as (l & _ & Hl & _).
  now apply lookup_lt_Some with l.
Qed.

(** The [switch]: with [all] the same array goes on; with [gainers] and
    [losers] the array that is sorted is the one [filter] has just made. *)
Lemma applyFilterM_ok (f : Filter) (a : loc) (h : Heap) (cs : list Coin) (n : nat) :
  contents h a = Some cs -> (n <= a)%nat ->
  exists res h',
    applyFilterM f a h = Some (res, h') /\
    frame n h h' /\ (n <= res)%nat /\
    contents h' res = Some (applyFilter f cs).
Proof.
  intros Hc Hn. pose proof (contents_lt _ _ _ Hc) as Ha.
  destruct f; cbn [applyFilterM applyFilter].
  - exists a, h. repeat split; auto.
  - destruct (Array_filter_ok
                (fun coin => js_gt (price_change_percentage_24h coin) (num 0))
                a h cs n Hc ltac:(lia)) as (h1 & E1 & F1 & C1).
    destruct (Array_sort_ok
                (fun x y => js_sub (price_change_percentage_24h y)
                                   (price_change_percentage_24h x))
                _ h1 _ n C1 ltac:(lia)) as (h2 & E2 & F2 & C2).
    exists (length (arrays h)), h2. unfold bind. rewrite E1, E2.
    repeat split; try apply (frame_trans n h h1 h2 F1 F2); auto; lia.
  - destruct (Array_filter_ok
                (fun coin => js_lt (price_change_percentage_24h coin) (num 0))
                a h cs n Hc ltac:(lia)) as (h1 & E1 & F1 & C1).
    destruct (Array_sort_ok
                (fun x y => js_sub (price_change_percentage_24h x)
                                   (price_change_percentage_24h y))
                _ h1 _ n C1 ltac:(lia)) as (h2 & E2 & F2 & C2).
    exists (length (arrays h)), h2. unfold bind. rewrite E1, E2.
    repeat split; try apply (frame_trans n h h1 h2 F1 F2); auto; lia.
Qed.

(** In the store, [sort] does reorder the array it is given: called on the
    array of [sampleHeap] itself it would change it. *)
Example sort_in_place_reorders :
  exists h',
    Array_sort (fun a b => js_sub (price_change_percentage_24h b)
                                  (price_change_percentage_24h a)) 0 sampleHeap
    = Some (0, h') /\
    arrays sampleHeap !! 0 = Some [0; 1] /\ arrays h' !! 0 = Some [1; 0].
Proof. eexists. repeat split. Qed.

(** C9: the engine changes none of its inputs.  Run on a store where
    [coins] is an array of live references and [vanryData] is [null] or a live
    reference, it ends, every object of the store is as before (the pinned
    record with them), every array that was in the store holds what it held,
    in the same order ([coins] with them), and the result is an array made
    during the run, holding what the function on lists computes; what
    [sort] reorders is an array made by [filter] during the run. *)
Theorem engine_leaves_inputs (h : Heap) (coins : loc) (vanryData : option loc)
    (s : string) (f : Filter) (cs : list Coin) :
  contents h coins = Some cs ->
  (forall r, vanryData = Some r -> is_Some (objects h !! r)) ->
  exists res h',
    filteredAndSortedCoinsM coins vanryData s f h = Some (res, h') /\
    objects h' = objects h /\
    (forall a : loc, (a < length (arrays h))%nat -> arrays h' !! a = arrays h !! a) /\
    contents h' coins = Some cs /\
    pinnedRecord h' vanryData = pinnedRecord h vanryData /\
    (length (arrays h) <= res)%nat /\
    contents h' res = Some (filteredAndSortedCoins cs (pinnedRecord h vanryData) s f).
Proof.
  intros Hc Hv. set (n := length (arrays h)).
  pose proof (contents_lt _ _ _ Hc) as Hlt.
  destruct (Array_filter_ok (matchesSearch s) coins h cs n Hc (Nat.le_refl _))
    as (h1 & E1 & F1 & C1).
  destruct (applyFilterM_ok f _ h1 _ n C1 (Nat.le_refl _))
    as (r2 & h2 & E2 & F2 & N2 & C2).
  pose proof (frame_trans n _ _ _ F1 F2) as F12.
  assert (Hend : forall res h',
            frame n h h' -> (n <= res)%nat ->
            contents h' res
            = Some (filteredAndSortedCoins cs (pinnedRecord h vanryData) s f) ->
            objects h' = objects h /\
            (forall a : loc, (a < n)%nat -> arrays h' !! a = arrays h !! a) /\
            contents h' coins = Some cs /\
            pinnedRecord h' vanryData = pinnedRecord h vanryData /\
            (n <= res)%nat /\
            contents h' res
            = Some (filteredAndSortedCoins cs (pinnedRecord h vanryData) s f)).
  { intros res h' F N C. pose proof F as (Ho & _ & Ha).
    repeat split; auto.
    - now rewrite (frame_contents n h h' coins F Hlt).
    - unfold pinnedRecord. now rewrite Ho. }
  unfold filteredAndSortedCoinsM, bind. rewrite E1, E2.
  destruct vanryData as [r|]; cbn [pinnedRecord] in *.
  - destruct (Hv r eq_refl) as [v Hr].
    assert (Hr2 : objects h2 !! r = Some v).
    { destruct F12 as (Ho & _). now rewrite Ho. }
    unfold readObj. rewrite Hr2, Hr. rewrite Hr in Hend.
    destruct (matchesSearch s v && vanryMatchesFilter f v) eqn:Em.
    + destruct (Array_filter_ok notVanar r2 h2 _ n C2) as (h3 & E3 & F3 & C3).
      { destruct F12 as (_ & Hl & _). fold n in Hl. lia. }
      destruct (Array_spread_cons_ok r _ h3 v _ n C3) as (h4 & E4 & F4 & C4).
      { destruct F3 as (Ho3 & _). now rewrite Ho3. }
      { destruct F12 as (_ & Hl & _). destruct F3 as (_ & Hl3 & _). fold n in Hl. lia. }
      rewrite E3, E4. eexists _, h4. split; [reflexivity|].
      apply Hend.
      * apply (frame_trans n _ _ _ F12), (frame_trans n _ _ _ F3), F4.
      * destruct F12 as (_ & Hl & _). destruct F3 as (_ & Hl3 & _). fold n in Hl. lia.
      * rewrite C4. f_equal. rewrite merge_shown by exact Em. reflexivity.
    + eexists r2, h2. split; [reflexivity|].
      apply Hend; auto. rewrite C2. f_equal. now rewrite merge_hidden by exact Em.
  - eexists r2, h2. split; [reflexivity|].
    apply Hend; auto.
Qed.

Lemma engine_leaves_inputs_witness :
  exists res h',
    filteredAndSortedCoinsM 0 (Some 2) "" gainers sampleHeap = Some (res, h') /\
    objects h' = objects sampleHeap /\
    (forall a : loc, (a < length (arrays sampleHeap))%nat ->
                     arrays h' !! a = arrays sampleHeap !! a) /\
    contents h' 0 = Some [Beta; Alpha] /\
    pinnedRecord h' (Some 2) = pinnedRecord sampleHeap (Some 2) /\
    (length (arrays sampleHeap) <= res)%nat /\
    contents h' res
    = Some (filteredAndSortedCoins [Beta; Alpha] (pinnedRecord sampleHeap (Some 2))
                                   "" gainers).
Proof.
  apply (engine_leaves_inputs sampleHeap 0 (Some 2) "" gainers [Beta; Alpha]).
  - reflexivity.
  - intros r [= <-]. exists Pinned. reflexivity.
Defined.

Example engine_on_sampleHeap :
  option_map fst (filteredAndSortedCoinsM 0 (Some 2) "" gainers sampleHeap) = Some 4%nat /\
  (forall h' res, filteredAndSortedCoinsM 0 (Some 2) "" gainers sampleHeap = Some (res, h') ->
                  arrays h' = [[0; 1]; [0; 1]; [1]; [1]; [2; 1]]).
Proof.
  split; [reflexivity|]. intros h' res. vm_compute. now intros [= <- <-].
Qed.

(** ** More on the filter/merge engine *)

Lemma filter_twice {A : Type} (p q : A -> bool) (l : list A) :
  List.filter p (List.filter q l) = List.filter (fun x => q x && p x) l.
Proof.
  induction l as [|x l IH]; simpl; [reflexivity|].
  destruct (q x); simpl; [destruct (p x)|]; now rewrite IH.
Qed.

Lemma filter_perm {A : Type} (p : A -> bool) (l l' : list A) :
  Permutation l l' -> Permutation (List.filter p l) (List.filter p l').
Proof.
  induction 1 as [|x l l' _ IH|x y l|l l' l'' _ IH1 _ IH2]; simpl.
  - constructor.
  - destruct (p x); [now constructor | exact IH].
  - destruct (p x), (p y); try reflexivity. apply perm_swap.
  - now transitivity (List.filter p l').
Qed.

Lemma applyFilter_perm (f : Filter) (l : list Coin) :
  Permutation (applyFilter f l) (List.filter (vanryMatchesFilter f) l).
Proof.
  destruct f; simpl.
  - now rewrite List.filter_true.
  - apply sort_perm.
  - apply sort_perm.
Qed.

Lemma nonPinnedPart_perm (coins : list Coin) (vanryData : option Coin)
    (s : string) (f : Filter) :
  Permutation (nonPinnedPart coins vanryData s f)
              (List.filter (keptGeneric vanryData s f) coins).
Proof.
  unfold nonPinnedPart, searchedAndFiltered, keptGeneric.
  destruct (pinnedShown vanryData s f); simpl.
  - rewrite (filter_perm notVanar _ _ (applyFilter_perm f _)).
    rewrite !filter_twice.
    erewrite List.filter_ext; [reflexivity|].
    intros c. cbv beta. now rewrite andb_assoc.
  - rewrite applyFilter_perm, filter_twice.
    erewrite List.filter_ext; [reflexivity|].
    intros c. cbv beta. now rewrite andb_true_r.
Qed.

Lemma kept_coin_in_result (coins : list Coin) (vanryData : option Coin)
    (s : string) (f : Filter) (c : Coin) :
  In c coins -> keptGeneric vanryData s f c = true ->
  In c (filteredAndSortedCoins coins vanryData s f).
Proof.
  intros Hin Hk. rewrite merge_split. apply in_or_app. right.
  apply (Permutation_in _ (Permutation_sym (nonPinnedPart_perm coins vanryData s f))).
  apply List.filter_In. now split.
Qed.


Lemma pinnedPart_length (vanryData : option Coin) (s : string) (f : Filter) :
  (length (pinnedPart vanryData s f) <= 1)%nat.
Proof.
  unfold pinnedPart. destruct vanryData as [v|]; [|simpl; lia].
  destruct (pinnedMatches v s f); simpl; lia.
Qed.

(** X1: the result is the prepended pinned record, if it passes, followed by
    a rearrangement of exactly the generic coins that are kept, each as often
    as it occurs in [coins]: nothing is invented, lost or repeated. *)
Theorem result_is_selection (coins : list Coin) (vanryData : option Coin)
    (s : string) (f : Filter) :
  exists rest,
    filteredAndSortedCoins coins vanryData s f = pinnedPart vanryData s f ++ rest /\
    Permutation rest (List.filter (keptGeneric vanryData s f) coins).
Proof.
  exists (nonPinnedPart coins vanryData s f).
  split; [apply merge_split | apply nonPinnedPart_perm].
Qed.


(** X3: the grid never holds more cards than there are generic coins plus
    one, and no more than the generic coins when there is no pinned record. *)
Theorem result_length_bound (coins : list Coin) (vanryData : option Coin)
    (s : string) (f : Filter) :
  (length (filteredAndSortedCoins coins vanryData s f) <= S (length coins))%nat /\
  (length (filteredAndSortedCoins coins None s f) <= length coins)%nat.
Proof.
  assert (H : forall vd, (length (nonPinnedPart coins vd s f) <= length coins)%nat).
  { intros vd. rewrite (Permutation_length (nonPinnedPart_perm coins vd s f)).
    apply List.filter_length_le. }
  split.
  - rewrite merge_split, length_app.
    pose proof (pinnedPart_length vanryData s f). specialize (H vanryData). lia.
  - rewrite merge_split. simpl. apply H.
Qed.

(** X4: no matching coin is lost: a generic coin that passes the search and
    the filter is in the result, unless its id is ['vanar-chain'] and the
    pinned record is shown. *)
Theorem passing_coin_is_shown (coins : list Coin) (vanryData : option Coin)
    (s : string) (f : Filter) (c : Coin) :
  In c coins -> matchesSearch s c = true -> vanryMatchesFilter f c = true ->
  id c <> "vanar-chain" \/ pinnedShown vanryData s f = false ->
  In c (filteredAndSortedCoins coins vanryData s f).
Proof.
  intros Hin Hs Hf Hkeep. apply kept_coin_in_result; [exact Hin|].
  unfold keptGeneric. rewrite Hs, Hf. simpl.
  destruct Hkeep as [Hid | ->]; [|reflexivity].
  apply orb_true_iff. right. unfold notVanar.
  apply negb_true_iff. now apply String.eqb_neq.
Qed.

Lemma passing_coin_is_shown_witness :
  In Alpha (filteredAndSortedCoins [Beta; Alpha] (Some Pinned) "ALP" gainers).
Proof.
  apply (passing_coin_is_shown [Beta; Alpha] (Some Pinned) "ALP" gainers Alpha).
  - right. left. reflexivity.
  - reflexivity.
  - reflexivity.
  - left. discriminate.
Defined.

(** X5: the grid is empty, and "No Results Found" is written (line 416),
    exactly when the pinned record is not shown and no generic coin passes
    both the search and the filter. *)
Theorem result_empty_iff (coins : list Coin) (vanryData : option Coin)
    (s : string) (f : Filter) :
  filteredAndSortedCoins coins vanryData s f = [] <->
  pinnedShown vanryData s f = false /\
  forall c, In c coins -> matchesSearch s c && vanryMatchesFilter f c = false.
Proof.
  split.
  - intros He. assert (Hs : pinnedShown vanryData s f = false).
    { destruct (pinnedShown vanryData s f) eqn:E; [|reflexivity].
      destruct vanryData as [v|]; [|discriminate]. simpl in E.
      rewrite merge_shown in He by exact E. discriminate. }
    split; [exact Hs|]. intros c Hc.
    destruct (matchesSearch s c && vanryMatchesFilter f c) eqn:E; [|reflexivity].
    assert (H : In c (filteredAndSortedCoins coins vanryData s f)).
    { apply kept_coin_in_result; [exact Hc|].
      unfold keptGeneric. now rewrite E, Hs. }
    rewrite He in H. destruct H.
  - intros [Hs Hnone]. rewrite merge_split.
    assert (Hp : pinnedPart vanryData s f = []).
    { unfold pinnedPart. destruct vanryData as [v|]; [|reflexivity].
      simpl in Hs. now rewrite Hs. }
    rewrite Hp. simpl.
    apply Permutation_nil. symmetry.
    rewrite (nonPinnedPart_perm coins vanryData s f).
    assert (Hnil : List.filter (keptGeneric vanryData s f) coins = []).
    { clear Hp. induction coins as [|c l IH]; [reflexivity|]. simpl.
      unfold keptGeneric at 1. rewrite (Hnone c (or_introl eq_refl)). simpl.
      apply IH. intros c' Hc'. apply Hnone. now right. }
    now rewrite Hnil.
Qed.

Lemma NoDup_map_filter {A B : Type} (g : A -> B) (p : A -> bool) (l : list A) :
  List.NoDup (map g l) -> List.NoDup (map g (List.filter p l)).
Proof.
  induction l as [|x l IH]; simpl; [auto|].
  intros H. apply List.NoDup_cons_iff in H. destruct H as [Hx Hl].
  destruct (p x); simpl; [|auto].
  constructor; [|auto].
  intros Hin. apply Hx. apply List.in_map_iff in Hin.
  destruct Hin as [y [Hy Hin]]. apply List.filter_In in Hin.
  apply List.in_map_iff. exists y. tauto.
Qed.

(** X6: the cards get distinct React keys (line 408): when the generic coins
    have pairwise distinct ids and the pinned record, if any, has the id
    ['vanar-chain'], the ids of the result are pairwise distinct. *)
Theorem result_ids_distinct (coins : list Coin) (vanryData : option Coin)
    (s : string) (f : Filter) :
  List.NoDup (map id coins) ->
  (forall v, vanryData = Some v -> id v = "vanar-chain") ->
  List.NoDup (map id (filteredAndSortedCoins coins vanryData s f)).
Proof.
  intros Hnd Hid.
  assert (Hrest : List.NoDup (map id (nonPinnedPart coins vanryData s f))).
  { apply (Permutation_NoDup
             (Permutation_sym (Permutation_map id (nonPinnedPart_perm coins vanryData s f)))).
    now apply NoDup_map_filter. }
  rewrite merge_split. unfold pinnedPart.
  destruct vanryData as [v|]; [|exact Hrest].
  destruct (pinnedMatches v s f) eqn:E; [|exact Hrest].
  simpl. constructor; [|exact Hrest].
  intros Hin. apply List.in_map_iff in Hin. destruct Hin as [c [Hc Hin]].
  apply (Permutation_in _ (nonPinnedPart_perm coins (Some v) s f)) in Hin.
  apply List.filter_In in Hin. destruct Hin as [_ Hk].
  unfold keptGeneric in Hk. cbn [pinnedShown] in Hk. rewrite E in Hk.
  apply andb_true_iff in Hk. destruct Hk as [_ Hk]. simpl in Hk.
  unfold notVanar in Hk. apply negb_true_iff, String.eqb_neq in Hk.
  rewrite (Hid v eq_refl) in Hc. contradiction.
Qed.

Lemma result_ids_distinct_witness :
  List.NoDup (map id (filteredAndSortedCoins [Alpha; Vanar; Beta] (Some VanarPinned) "" all)).
Proof.
  apply (result_ids_distinct [Alpha; Vanar; Beta] (Some VanarPinned) "" all).
  - simpl. repeat constructor; simpl; intuition discriminate.
  - intros v [= <-]. reflexivity.
Defined.

Lemma sameChange_tie (q : Q) (x y : Coin) :
  sameChange q x = true -> sameChange q y = true ->
  js_gt (js_sub (price_change_percentage_24h y) (price_change_percentage_24h x)) (num 0)
  = false.
Proof.
  unfold sameChange.
  destruct (price_change_percentage_24h x) as [a|]; [|discriminate].
  destruct (price_change_percentage_24h y) as [b|]; [|discriminate].
  intros Ha Hb. apply Qeq_bool_iff in Ha, Hb. simpl.
  apply Qltb_ge. lra.
Qed.

Lemma applyFilter_ties (q : Q) (f : Filter) (l : list Coin) :
  List.filter (sameChange q) (applyFilter f l)
  = List.filter (sameChange q) (List.filter (vanryMatchesFilter f) l).
Proof.
  destruct f; cbn [applyFilter vanryMatchesFilter].
  - now rewrite List.filter_true.
  - apply sort_stable. intros x y Hx Hy. exact (sameChange_tie q x y Hx Hy).
  - apply sort_stable. intros x y Hx Hy. exact (sameChange_tie q y x Hy Hx).
Qed.

Lemma filter_swap {A : Type} (p q : A -> bool) (l : list A) :
  List.filter p (List.filter q l) = List.filter q (List.filter p l).
Proof.
  rewrite !filter_twice. apply List.filter_ext. intros x. apply andb_comm.
Qed.

Lemma nonPinnedPart_ties (q : Q) (coins : list Coin) (vanryData : option Coin)
    (s : string) (f : Filter) :
  List.filter (sameChange q) (nonPinnedPart coins vanryData s f)
  = List.filter (sameChange q) (List.filter (keptGeneric vanryData s f) coins).
Proof.
  unfold nonPinnedPart, searchedAndFiltered, keptGeneric.
  destruct (pinnedShown vanryData s f); simpl.
  - rewrite (filter_swap (sameChange q) notVanar), applyFilter_ties.
    rewrite (filter_swap notVanar (sameChange q)). f_equal.
    rewrite !filter_twice. apply List.filter_ext. intros c. now rewrite andb_assoc.
  - rewrite applyFilter_ties. f_equal.
    rewrite filter_twice. apply List.filter_ext. intros c. now rewrite andb_true_r.
Qed.

(** X7: ties keep their order: under every filter, the coins of the result
    that have one and the same change stand in the order they have in
    [coins]; the sort of lines 338 and 342 only moves coins whose changes
    differ. *)
Theorem ties_keep_order (coins : list Coin) (vanryData : option Coin)
    (s : string) (f : Filter) (q : Q) :
  exists rest,
    filteredAndSortedCoins coins vanryData s f = pinnedPart vanryData s f ++ rest /\
    List.filter (sameChange q) rest
    = List.filter (sameChange q) (List.filter (keptGeneric vanryData s f) coins).
Proof.
  exists (nonPinnedPart coins vanryData s f).
  split; [apply merge_split | apply nonPinnedPart_ties].
Qed.

(** X8: every card of the [gainers] view, the pinned one included, is green
    and carries a plus sign; every card of the [losers] view is red and
    carries no plus sign (lines 169 and 196). *)
Theorem view_colours (coins : list Coin) (vanryData : option Coin) (s : string) :
  Forall (fun c => changeColor c = "text-green-500" /\ changePrefix c = "+")
         (filteredAndSortedCoins coins vanryData s gainers) /\
  Forall (fun c => changeColor c = "text-red-500" /\ changePrefix c = "")
         (filteredAndSortedCoins coins vanryData s losers).
Proof.
  split; rewrite List.Forall_forall; intros c Hc;
    apply merge_In_matches in Hc; destruct Hc as [_ Hc]; simpl in Hc;
    unfold changeColor, changePrefix.
  - apply js_gt_0 in Hc. destruct Hc as [q [-> Hq]]. simpl.
    assert (E : Qle_bool 0 q = true) by (apply Qle_bool_iff; lra).
    now rewrite E.
  - apply js_lt_0 in Hc. destruct Hc as [q [-> Hq]]. simpl.
    assert (E : Qle_bool 0 q = false).
    { apply not_true_iff_false. rewrite Qle_bool_iff. lra. }
    now rewrite E.
Qed.

Lemma string_app_assoc (a b c : string) :
  ((a ++ b) ++ c)%string = (a ++ b ++ c)%string.
Proof.
  induction a as [|x a IH]; simpl; [reflexivity|]. now rewrite IH.
Qed.

Lemma includes_trans (x y z : string) :
  includes x y = true -> includes y z = true -> includes x z = true.
Proof.
  rewrite !includes_spec. intros [a [b ->]] [p [q ->]].
  exists (a ++ p)%string, (q ++ b)%string.
  now rewrite !string_app_assoc.
Qed.

Lemma matchesSearch_narrow (s1 s2 : string) (c : Coin) :
  containsCI s2 s1 -> matchesSearch s2 c = true -> matchesSearch s1 c = true.
Proof.
  intros H. apply includes_spec in H. unfold matchesSearch.
  rewrite !orb_true_iff. intros [Hc | Hc]; [left | right];
    now apply includes_trans with (toLowerCase s2).
Qed.

(** X9: a longer search term narrows the grid: if the term [s2] contains the
    term [s1], case put aside, every coin shown for [s2] is shown for [s1],
    except an entry of id ['vanar-chain'] that the pinned record, shown for
    [s1], displaces. *)
Theorem longer_search_narrows (coins : list Coin) (vanryData : option Coin)
    (f : Filter) (s1 s2 : string) (c : Coin) :
  containsCI s2 s1 ->
  In c (filteredAndSortedCoins coins vanryData s2 f) ->
  In c (filteredAndSortedCoins coins vanryData s1 f) \/
  (id c = "vanar-chain" /\ pinnedShown vanryData s1 f = true).
Proof.
  intros Hsub Hin. rewrite merge_split in Hin. apply in_app_or in Hin.
  destruct Hin as [Hin | Hin].
  - left. unfold pinnedPart in Hin. destruct vanryData as [v|]; [|destruct Hin].
    destruct (pinnedMatches v s2 f) eqn:E; [|destruct Hin].
    destruct Hin as [<- | []].
    unfold pinnedMatches in E. apply andb_true_iff in E. destruct E as [E1 E2].
    rewrite merge_shown; [now left|].
    unfold pinnedMatches. now rewrite (matchesSearch_narrow s1 s2 v Hsub E1), E2.
  - apply (Permutation_in _ (nonPinnedPart_perm coins vanryData s2 f)) in Hin.
    apply List.filter_In in Hin. destruct Hin as [Hc Hk].
    unfold keptGeneric in Hk. apply andb_true_iff in Hk. destruct Hk as [Hk _].
    apply andb_true_iff in Hk. destruct Hk as [Hs Hf].
    pose proof (matchesSearch_narrow s1 s2 c Hsub Hs) as Hs1.
    destruct (notVanar c) eqn:En.
    + left. apply kept_coin_in_result; [exact Hc|].
      unfold keptGeneric. now rewrite Hs1, Hf, En, orb_true_r.
    + destruct (pinnedShown vanryData s1 f) eqn:Ep.
      * right. split; [|reflexivity].
        unfold notVanar in En. apply negb_false_iff in En. now apply String.eqb_eq.
      * left. apply kept_coin_in_result; [exact Hc|].
        unfold keptGeneric. now rewrite Hs1, Hf, Ep.
Qed.

Lemma longer_search_narrows_witness :
  In Alpha (filteredAndSortedCoins [Beta; Alpha] (Some Pinned) "al" all) \/
  (id Alpha = "vanar-chain" /\ pinnedShown (Some Pinned) "al" all = true).
Proof.
  apply (longer_search_narrows [Beta; Alpha] (Some Pinned) all "al" "ALPHA" Alpha).
  - exists "", "pha". reflexivity.
  - simpl. left. reflexivity.
Defined.

(** X10: the case of the search term does not matter: two terms that agree
    once lower-cased give the same result. *)
Theorem search_ignores_case (coins : list Coin) (vanryData : option Coin)
    (f : Filter) (s1 s2 : string) :
  toLowerCase s1 = toLowerCase s2 ->
  filteredAndSortedCoins coins vanryData s1 f
  = filteredAndSortedCoins coins vanryData s2 f.
Proof.
  intros H.
  assert (Hm : forall c, matchesSearch s1 c = matchesSearch s2 c).
  { intros c. unfold matchesSearch. now rewrite H. }
  unfold filteredAndSortedCoins. cbv zeta.
  rewrite (List.filter_ext _ _ Hm).
  destruct vanryData as [v|]; [|reflexivity]. now rewrite Hm.
Qed.

Lemma search_ignores_case_witness :
  filteredAndSortedCoins [Alpha; Beta] (Some Pinned) "BeT" all
  = filteredAndSortedCoins [Alpha; Beta] (Some Pinned) "bEt" all.
Proof.
  apply (search_ignores_case [Alpha; Beta] (Some Pinned) all "BeT" "bEt").
  reflexivity.
Defined.

(** ** More on the market-data client *)

Lemma failed_request_fallback {A : Type}
    (c : coinGeckoAPI.Completion coinGeckoAPI.Response) (message : string)
    (k : coinGeckoAPI.Response -> coinGeckoAPI.Completion A) (fallback : A) :
  coinGeckoAPI.failed c ->
  coinGeckoAPI.try_catch
    (response ← c;
     if negb (coinGeckoAPI.ok response)
     then coinGeckoAPI.Throw (coinGeckoAPI.ErrorOf message)
     else k response)
    (fun _ => coinGeckoAPI.Normal fallback)
  = coinGeckoAPI.Normal fallback.
Proof.
  destruct c as [response | e]; simpl; intros H.
  - unfold mbind, coinGeckoAPI.Completion_bind. now rewrite H.
  - reflexivity.
Qed.

Lemma getPropOpt_field (v : coinGeckoAPI.Value) (k : string) :
  coinGeckoAPI.getPropOpt v k = coinGeckoAPI.Normal (field v k).
Proof. destruct v as [[]|]; reflexivity. Qed.

Lemma getProp_field (data : coinGeckoAPI.Json) (k : string) :
  data <> coinGeckoAPI.JNull ->
  coinGeckoAPI.getProp (Some data) k = coinGeckoAPI.Normal (field (Some data) k).
Proof. destruct data; intros H; try reflexivity. now destruct H. Qed.

Lemma classic_null (data : coinGeckoAPI.Json) :
  data = coinGeckoAPI.JNull \/ data <> coinGeckoAPI.JNull.
Proof. destruct data; (now left) || (right; discriminate). Qed.

Lemma fetchVanryData_body (fetch : coinGeckoAPI.Fetch)
    (r : coinGeckoAPI.Response) (data : coinGeckoAPI.Json) :
  fetch coinGeckoAPI.vanryUrl = coinGeckoAPI.Normal r ->
  coinGeckoAPI.ok r = true ->
  coinGeckoAPI.json r = coinGeckoAPI.Normal data ->
  coinGeckoAPI.fetchVanryData fetch
  = coinGeckoAPI.Normal
      (match data with
       | coinGeckoAPI.JNull => None
       | _ => Some (projectVanry data)
       end).
Proof.
  intros Hf Hok Hj. unfold coinGeckoAPI.fetchVanryData.
  rewrite Hf. cbn [mbind coinGeckoAPI.Completion_bind]. rewrite Hok, Hj.
  cbn [negb mbind coinGeckoAPI.Completion_bind].
  destruct (classic_null data) as [-> | Hnn]; [reflexivity|].
  rewrite !(getProp_field data _ Hnn).
  cbn [mbind coinGeckoAPI.Completion_bind].
  rewrite !getPropOpt_field. cbn [mbind coinGeckoAPI.Completion_bind].
  rewrite !getPropOpt_field. cbn [mbind coinGeckoAPI.Completion_bind].
  destruct data; try reflexivity. now destruct Hnn.
Qed.

(** X11: a body that cannot be read is a failure like the others: when the
    response has a success status but [response.json()] rejects, [fetchCoins]
    yields the empty array, [fetchVanryData] yields [null] and
    [fetchChartData] yields the empty array. *)
Theorem unreadable_body_fails_soft (toLocaleDateString : coinGeckoAPI.Value -> string)
    (fetch : coinGeckoAPI.Fetch) (coinId : string) :
  (forall r e, fetch coinGeckoAPI.coinsUrl = coinGeckoAPI.Normal r ->
               coinGeckoAPI.json r = coinGeckoAPI.Throw e ->
               coinGeckoAPI.fetchCoins fetch = coinGeckoAPI.Normal (coinGeckoAPI.JArr [])) /\
  (forall r e, fetch coinGeckoAPI.vanryUrl = coinGeckoAPI.Normal r ->
               coinGeckoAPI.json r = coinGeckoAPI.Throw e ->
               coinGeckoAPI.fetchVanryData fetch = coinGeckoAPI.Normal None) /\
  (forall r e, fetch (coinGeckoAPI.chartUrl coinId) = coinGeckoAPI.Normal r ->
               coinGeckoAPI.json r = coinGeckoAPI.Throw e ->
               coinGeckoAPI.fetchChartData toLocaleDateString fetch coinId
               = coinGeckoAPI.Normal []).
Proof.
  repeat split; intros r e Hf Hj.
  - unfold coinGeckoAPI.fetchCoins. rewrite Hf.
    cbn [mbind coinGeckoAPI.Completion_bind]. rewrite Hj. now destruct (coinGeckoAPI.ok r).
  - unfold coinGeckoAPI.fetchVanryData. rewrite Hf.
    cbn [mbind coinGeckoAPI.Completion_bind]. rewrite Hj. now destruct (coinGeckoAPI.ok r).
  - unfold coinGeckoAPI.fetchChartData. rewrite Hf.
    cbn [mbind coinGeckoAPI.Completion_bind]. rewrite Hj. now destruct (coinGeckoAPI.ok r).
Qed.

Lemma unreadable_body_fails_soft_witness :
  coinGeckoAPI.fetchCoins
    (fun _ => coinGeckoAPI.Normal
                (coinGeckoAPI.mkResponse true (coinGeckoAPI.Throw coinGeckoAPI.SyntaxError)))
  = coinGeckoAPI.Normal (coinGeckoAPI.JArr []).
Proof.
  exact (proj1 (unreadable_body_fails_soft (fun _ => "")
                  (fun _ => coinGeckoAPI.Normal
                     (coinGeckoAPI.mkResponse true
                        (coinGeckoAPI.Throw coinGeckoAPI.SyntaxError)))
                  "bitcoin")
               _ coinGeckoAPI.SyntaxError eq_refl eq_refl).
Defined.

(** X12: missing fields do not fail the pinned request: for a success
    response whose body is any value but [null], [fetchVanryData] yields a
    record whose seven fields are the values found at the paths [id],
    [symbol], [name], [image.large], [market_data.current_price.usd],
    [market_data.price_change_percentage_24h] and
    [market_data.market_cap.usd], each [undefined] where the path breaks. *)
Theorem fetchVanryData_tolerates_shape (fetch : coinGeckoAPI.Fetch)
    (r : coinGeckoAPI.Response) (data : coinGeckoAPI.Json) :
  fetch coinGeckoAPI.vanryUrl = coinGeckoAPI.Normal r ->
  coinGeckoAPI.ok r = true ->
  coinGeckoAPI.json r = coinGeckoAPI.Normal data ->
  data <> coinGeckoAPI.JNull ->
  coinGeckoAPI.fetchVanryData fetch = coinGeckoAPI.Normal (Some (projectVanry data)).
Proof.
  intros Hf Hok Hj Hnn. rewrite (fetchVanryData_body fetch r data Hf Hok Hj).
  destruct data; try reflexivity. now destruct Hnn.
Qed.

Lemma fetchVanryData_tolerates_shape_witness :
  coinGeckoAPI.fetchVanryData
    (replying (coinGeckoAPI.JObj [("name", coinGeckoAPI.JStr "Vanar Chain");
                                  ("image", coinGeckoAPI.JStr "none")]))
  = coinGeckoAPI.Normal (Some
      (coinGeckoAPI.mkVanryData None None (Some (coinGeckoAPI.JStr "Vanar Chain"))
                                None None None None)).
Proof.
  apply (fetchVanryData_tolerates_shape
           (replying (coinGeckoAPI.JObj [("name", coinGeckoAPI.JStr "Vanar Chain");
                                         ("image", coinGeckoAPI.JStr "none")]))
           (coinGeckoAPI.mkResponse true
              (coinGeckoAPI.Normal
                 (coinGeckoAPI.JObj [("name", coinGeckoAPI.JStr "Vanar Chain");
                                     ("image", coinGeckoAPI.JStr "none")])))
           (coinGeckoAPI.JObj [("name", coinGeckoAPI.JStr "Vanar Chain");
                               ("image", coinGeckoAPI.JStr "none")]));
    try reflexivity. discriminate.
Defined.

(** X13: [fetchVanryData] yields [null] in exactly three cases: the request
    failed (transport or status), the body could not be read, or the body is
    [null]. *)
Theorem fetchVanryData_null_iff (fetch : coinGeckoAPI.Fetch) :
  coinGeckoAPI.fetchVanryData fetch = coinGeckoAPI.Normal None <->
  coinGeckoAPI.failed (fetch coinGeckoAPI.vanryUrl) \/
  exists r, fetch coinGeckoAPI.vanryUrl = coinGeckoAPI.Normal r /\
            ((exists e, coinGeckoAPI.json r = coinGeckoAPI.Throw e) \/
             coinGeckoAPI.json r = coinGeckoAPI.Normal coinGeckoAPI.JNull).
Proof.
  destruct (fetch coinGeckoAPI.vanryUrl) as [r | e] eqn:Hf.
  - destruct (coinGeckoAPI.ok r) eqn:Hok.
    + destruct (coinGeckoAPI.json r) as [data | e] eqn:Hj.
      * rewrite (fetchVanryData_body fetch r data Hf Hok Hj). split.
        -- intros H. right. exists r. split; [reflexivity|]. right.
           destruct data; try discriminate. exact Hj.
        -- intros [H | [r' [[= <-] [[e He] | He]]]].
           ++ simpl in H. congruence.
           ++ congruence.
           ++ rewrite Hj in He. now injection He as ->.
      * split.
        -- intros _. right. exists r. split; [reflexivity|]. left. now exists e.
        -- intros _. unfold coinGeckoAPI.fetchVanryData. rewrite Hf.
           cbn [mbind coinGeckoAPI.Completion_bind]. now rewrite Hok, Hj.
    + split.
      * intros _. left. exact Hok.
      * intros _. unfold coinGeckoAPI.fetchVanryData.
        apply failed_request_fallback. now rewrite Hf.
  - split.
    + intros _. now left.
    + intros _. unfold coinGeckoAPI.fetchVanryData.
      apply failed_request_fallback. now rewrite Hf.
Qed.


Lemma mapPrices_bad (toLocaleDateString : coinGeckoAPI.Value -> string)
    (items : list coinGeckoAPI.Json) :
  Exists (fun j => notIterable j = true) items ->
  coinGeckoAPI.mapPrices toLocaleDateString items
  = coinGeckoAPI.Throw coinGeckoAPI.TypeError.
Proof.
  induction items as [|entry items IH]; intros H.
  - inversion H.
  - cbn [coinGeckoAPI.mapPrices].
    destruct (notIterable entry) eqn:E.
    + destruct entry; try discriminate; reflexivity.
    + assert (Hrest : Exists (fun j => notIterable j = true) items).
      { inversion H; subst; [congruence | assumption]. }
      rewrite (IH Hrest). destruct entry; try discriminate; reflexivity.
Qed.



(** X15: one bad row empties the chart: for a success response whose
    [prices] is missing, is no array, or is an array with an entry that is
    neither an array nor a string, [fetchChartData] yields the empty array,
    whatever the other rows hold. *)
Theorem fetchChartData_all_or_nothing (toLocaleDateString : coinGeckoAPI.Value -> string)
    (fetch : coinGeckoAPI.Fetch) (coinId : string)
    (r : coinGeckoAPI.Response) (data : coinGeckoAPI.Json) :
  fetch (coinGeckoAPI.chartUrl coinId) = coinGeckoAPI.Normal r ->
  coinGeckoAPI.json r = coinGeckoAPI.Normal data ->
  (forall items, field (Some data) "prices" = Some (coinGeckoAPI.JArr items) ->
                 Exists (fun j => notIterable j = true) items) ->
  coinGeckoAPI.fetchChartData toLocaleDateString fetch coinId = coinGeckoAPI.Normal [].
Proof.
  intros Hf Hj Hbad. unfold coinGeckoAPI.fetchChartData.
  rewrite Hf. cbn [mbind coinGeckoAPI.Completion_bind]. rewrite Hj.
  destruct (coinGeckoAPI.ok r); [|reflexivity].
  cbn [negb mbind coinGeckoAPI.Completion_bind].
  destruct (classic_null data) as [-> | Hnn]; [reflexivity|].
  rewrite (getProp_field data _ Hnn).
  cbn [mbind coinGeckoAPI.Completion_bind].
  destruct (field (Some data) "prices") as [[]|] eqn:E; try reflexivity.
  cbn [coinGeckoAPI.mapOf]. now rewrite (mapPrices_bad _ _ (Hbad _ eq_refl)).
Qed.

Lemma fetchChartData_all_or_nothing_witness :
  coinGeckoAPI.fetchChartData (fun _ => "day")
    (replying (coinGeckoAPI.JObj
       [("prices", coinGeckoAPI.JArr
          [coinGeckoAPI.JArr [coinGeckoAPI.JNum 1; coinGeckoAPI.JNum 10];
           coinGeckoAPI.JNull])]))
    "bitcoin"
  = coinGeckoAPI.Normal [].
Proof.
  eapply (fetchChartData_all_or_nothing (fun _ => "day") _ "bitcoin");
    [reflexivity | reflexivity |].
  intros items [= <-]. right. left. reflexivity.
Defined.



(** ** More on the chart state of [CoinDetail] *)

(** X17: a failed chart request ends in the placeholder text: when the
    request for a coin failed and its result arrives while the modal is open,
    the chart area shows "Loading chart data...", neither the spinner nor a
    chart nor an error. *)
Theorem failed_chart_shows_placeholder
    (toLocaleDateString : coinGeckoAPI.Value -> string) (fetch : coinGeckoAPI.Fetch)
    (st st' : DetailState) (i : string) (c : Coin) :
  coin st = Some c ->
  coinGeckoAPI.failed (fetch (coinGeckoAPI.chartUrl i)) ->
  step (chartOfClient toLocaleDateString fetch) st (Resolve i) = Some st' ->
  chartArea st' = Some LoadingText.
Proof.
  intros Hc Hfail Hstep.
  apply resolve_overwrites in Hstep. destruct Hstep as (Hc' & Hd & Hl & _).
  unfold chartArea. rewrite Hc', Hc, Hl, Hd.
  unfold chartOfClient, coinGeckoAPI.fetchChartData.
  now rewrite failed_request_fallback by exact Hfail.
Qed.

Lemma failed_chart_shows_placeholder_witness :
  exists st',
    run (chartOfClient (fun _ => "") offline) initialDetail
        [SetCoin (Some Alpha); Resolve "a"] = Some st' /\
    chartArea st' = Some LoadingText.
Proof.
  eexists. split; [reflexivity|].
  apply (failed_chart_shows_placeholder (fun _ => "") offline
           (mkDetailState (Some Alpha) [] true ["a"]) _ "a" Alpha).
  - reflexivity.
  - exact I.
  - reflexivity.
Defined.

Lemma removeOne_In (i j : string) (l : list string) :
  In j (removeOne i l) -> In j l.
Proof.
  induction l as [|k l IH]; simpl; [auto|].
  destruct (String.eqb i k); simpl; intuition.
Qed.

Lemma existsb_eqb_In (i : string) (l : list string) :
  existsb (String.eqb i) l = true -> In i l.
Proof.
  intros H. apply List.existsb_exists in H. destruct H as [j [Hj He]].
  apply String.eqb_eq in He. now subst.
Qed.

Lemma run_provenance (chartOf : string -> list coinGeckoAPI.PricePoint)
    (es : list Event) (S : list string) (st0 st : DetailState) :
  (forall i, In i (inFlight st0) -> In i S) ->
  (chartData st0 = [] \/ exists i, In i S /\ chartData st0 = chartOf i) ->
  run chartOf st0 es = Some st ->
  chartData st = [] \/ exists i, In i (S ++ selectedIds es) /\ chartData st = chartOf i.
Proof.
  revert S st0. induction es as [|e es IH]; intros S st0 Hfl Hcd Hrun.
  - simpl in Hrun. injection Hrun as <-. simpl. rewrite app_nil_r. exact Hcd.
  - cbn [run] in Hrun. destruct (step chartOf st0 e) as [st1|] eqn:Hs; [|discriminate].
    destruct e as [[c|] | i].
    + simpl in Hs. injection Hs as <-.
      cbn [selectedIds].
      replace (S ++ id c :: selectedIds es) with ((S ++ [id c]) ++ selectedIds es)
        by (rewrite <- app_assoc; reflexivity).
      refine (IH (S ++ [id c]) _ _ _ Hrun); cbn [inFlight chartData].
      * intros i Hi. apply in_app_or in Hi. apply in_or_app.
        destruct Hi as [Hi | Hi]; [left; auto | right; exact Hi].
      * destruct Hcd as [Hcd | [i [Hi Hcd]]]; [now left|].
        right. exists i. split; [apply in_or_app; now left | exact Hcd].
    + simpl in Hs. injection Hs as <-.
      cbn [selectedIds]. refine (IH S _ _ _ Hrun); assumption.
    + pose proof Hs as Hs'. apply resolve_overwrites in Hs'.
      destruct Hs' as (_ & Hd & _ & Hfl').
      simpl in Hs. destruct (existsb (String.eqb i) (inFlight st0)) eqn:He; [|discriminate].
      cbn [selectedIds]. apply (IH S st1); [| |exact Hrun].
      * intros j Hj. rewrite Hfl' in Hj. apply Hfl. now apply removeOne_In in Hj.
      * right. exists i. split; [|exact Hd]. apply Hfl. now apply existsb_eqb_In.
Qed.

(** X18: the chart never holds data of a coin that was not selected: after
    any sequence of selections, closings and arrivals from the initial state,
    [chartData] is empty or is the chart of a coin selected along the way. *)
Theorem chart_comes_from_a_selected_coin
    (chartOf : string -> list coinGeckoAPI.PricePoint) (es : list Event)
    (st : DetailState) :
  run chartOf initialDetail es = Some st ->
  chartData st = [] \/ exists i, In i (selectedIds es) /\ chartData st = chartOf i.
Proof.
  intros Hrun.
  apply (run_provenance chartOf es [] initialDetail st); [| |exact Hrun].
  - intros i [].
  - now left.
Qed.

Lemma chart_comes_from_a_selected_coin_witness :
  sampleChart "a" = [] \/
  exists i, In i (selectedIds [SetCoin (Some Alpha); Resolve "a"]) /\
            sampleChart "a" = sampleChart i.
Proof.
  exact (chart_comes_from_a_selected_coin sampleChart [SetCoin (Some Alpha); Resolve "a"]
           (mkDetailState (Some Alpha) (sampleChart "a") false []) eq_refl).
Defined.

Lemma pending_or_idle_step (chartOf : string -> list coinGeckoAPI.PricePoint)
    (es : list Event) (st0 st : DetailState) :
  inFlight st0 <> [] \/ loading st0 = false ->
  run chartOf st0 es = Some st ->
  inFlight st <> [] \/ loading st = false.
Proof.
  revert st0. induction es as [|e es IH]; intros st0 HJ Hrun.
  - simpl in Hrun. now injection Hrun as <-.
  - cbn [run] in Hrun. destruct (step chartOf st0 e) as [st1|] eqn:Hs; [|discriminate].
    apply (IH st1); [|exact Hrun].
    destruct e as [[c|] | i].
    + simpl in Hs. injection Hs as <-. left. cbn [inFlight].
      intros H. apply app_eq_nil in H. destruct H as [_ H]. discriminate.
    + simpl in Hs. injection Hs as <-. exact HJ.
    + apply resolve_overwrites in Hs. right. tauto.
Qed.

Lemma pending_or_idle_after_selection
    (chartOf : string -> list coinGeckoAPI.PricePoint)
    (es : list Event) (st0 st : DetailState) :
  inFlight st0 = [] ->
  run chartOf st0 es = Some st ->
  selectedIds es <> [] ->
  inFlight st <> [] \/ loading st = false.
Proof.
  revert st0. induction es as [|e es IH]; intros st0 H0 Hrun Hsel.
  - now destruct Hsel.
  - cbn [run] in Hrun. destruct (step chartOf st0 e) as [st1|] eqn:Hs; [|discriminate].
    destruct e as [[c|] | i].
    + simpl in Hs. injection Hs as <-.
      refine (pending_or_idle_step chartOf es _ st _ Hrun).
      left. cbn [inFlight]. intros H. apply app_eq_nil in H.
      destruct H as [_ H]. discriminate.
    + simpl in Hs. injection Hs as <-. refine (IH _ _ Hrun Hsel). exact H0.
    + simpl in Hs. rewrite H0 in Hs. discriminate.
Qed.

(** X19: the spinner is shown only while a request is pending: after any
    sequence of events from the initial state in which a coin was selected,
    if no chart request is in flight then [loading] is false. *)
Theorem no_spinner_when_idle
    (chartOf : string -> list coinGeckoAPI.PricePoint) (es : list Event)
    (st : DetailState) :
  run chartOf initialDetail es = Some st ->
  selectedIds es <> [] ->
  inFlight st = [] ->
  loading st = false.
Proof.
  intros Hrun Hsel Hidle.
  destruct (pending_or_idle_after_selection chartOf es initialDetail st eq_refl Hrun Hsel)
    as [HJ | HJ]; [contradiction | exact HJ].
Qed.

Lemma no_spinner_when_idle_witness :
  loading (mkDetailState (Some Alpha) (sampleChart "a") false []) = false.
Proof.
  apply (no_spinner_when_idle sampleChart [SetCoin (Some Alpha); Resolve "a"]).
  - reflexivity.
  - discriminate.
  - reflexivity.
Defined.

(** ** The engine applied to its own result *)

Lemma filter_id {A : Type} (p : A -> bool) (l : list A) :
  (forall x, In x l -> p x = true) -> List.filter p l = l.
Proof.
  induction l as [|x l IH]; intros H; simpl; [reflexivity|].
  rewrite (H x (or_introl eq_refl)). f_equal. apply IH. intros y Hy. apply H. now right.
Qed.

Lemma sort_of_sorted {A : Type} (comparefn : A -> A -> number) (l : list A) :
  StronglySorted (fun x y => js_gt (comparefn x y) (num 0) = false) l ->
  sort comparefn l = l.
Proof.
  induction 1 as [|x l Hs IH Hx]; [reflexivity|].
  cbn [sort]. rewrite IH. destruct l as [|y l]; [reflexivity|].
  cbn [sort_insert]. inversion Hx as [|? ? Hxy _]; subst. now rewrite Hxy.
Qed.

Lemma filter_sort_insert_drop {A : Type} (comparefn : A -> A -> number)
    (p : A -> bool) (x : A) (l : list A) :
  p x = false -> List.filter p (sort_insert comparefn x l) = List.filter p l.
Proof.
  intros Hx. induction l as [|y l IH]; cbn [sort_insert List.filter].
  - now rewrite Hx.
  - destruct (js_gt (comparefn x y) (num 0)); cbn [List.filter].
    + now rewrite IH.
    + now rewrite Hx.
Qed.

Lemma StronglySorted_weaken {A : Type} (R R' : A -> A -> Prop) (l : list A) :
  (forall x y, R x y -> R' x y) -> StronglySorted R l -> StronglySorted R' l.
Proof.
  intros HR. induction 1 as [|x l Hs IH Hx]; constructor; [exact IH|].
  rewrite List.Forall_forall in *. auto.
Qed.

Lemma descending_no_swap (x y : Coin) :
  descending x y ->
  js_gt (js_sub (price_change_percentage_24h y) (price_change_percentage_24h x)) (num 0)
  = false.
Proof.
  intros [a [b [-> [-> H]]]]. simpl. apply Qltb_ge. lra.
Qed.

Lemma ascending_no_swap (x y : Coin) :
  ascending x y ->
  js_gt (js_sub (price_change_percentage_24h x) (price_change_percentage_24h y)) (num 0)
  = false.
Proof.
  intros [a [b [-> [-> H]]]]. simpl. apply Qltb_ge. lra.
Qed.

(** A list in the order of the filter: any order for [all]. *)
Lemma searchedAndFiltered_ordered (coins : list Coin) (s : string) (f : Filter) :
  match f with
  | all => True
  | gainers => StronglySorted descending (searchedAndFiltered coins s f)
  | losers => StronglySorted ascending (searchedAndFiltered coins s f)
  end.
Proof.
  destruct f; [exact I | apply gainers_sorted | apply losers_sorted].
Qed.

Lemma applyFilter_fixed (f : Filter) (v : option Coin) (l : list Coin) :
  (forall c, In c l -> vanryMatchesFilter f c = true) ->
  match f with
  | all => True
  | gainers => StronglySorted descending l
  | losers => StronglySorted ascending l
  end ->
  (forall x, v = Some x -> notVanar x = false /\ vanryMatchesFilter f x = true) ->
  List.filter notVanar (applyFilter f (match v with Some x => x :: l | None => l end))
  = List.filter notVanar l /\
  applyFilter f l = l.
Proof.
  intros Hpass Hord Hv.
  assert (Hfix : applyFilter f l = l).
  { destruct f; cbn [applyFilter]; [reflexivity | |].
    - rewrite (filter_id (fun coin => js_gt (price_change_percentage_24h coin) (num 0)) l Hpass). apply sort_of_sorted.
      apply (StronglySorted_weaken descending); [apply descending_no_swap | exact Hord].
    - rewrite (filter_id (fun coin => js_lt (price_change_percentage_24h coin) (num 0)) l Hpass). apply sort_of_sorted.
      apply (StronglySorted_weaken ascending); [|exact Hord].
      intros x y H. now apply ascending_no_swap. }
  split; [|exact Hfix].
  destruct v as [x|]; [|now rewrite Hfix].
  destruct (Hv x eq_refl) as [Hnv Hfx].
  assert (Hpass' : forall c, In c (x :: l) -> vanryMatchesFilter f c = true).
  { intros c [<- | Hc]; auto. }
  destruct f; cbn [applyFilter] in *.
  - cbn [List.filter]. now rewrite Hnv.
  - rewrite (filter_id (fun coin => js_gt (price_change_percentage_24h coin) (num 0)) (x :: l) Hpass'). cbn [sort].
    rewrite (filter_id (fun coin => js_gt (price_change_percentage_24h coin) (num 0)) l Hpass) in Hfix. rewrite Hfix.
    now apply filter_sort_insert_drop.
  - rewrite (filter_id (fun coin => js_lt (price_change_percentage_24h coin) (num 0)) (x :: l) Hpass'). cbn [sort].
    rewrite (filter_id (fun coin => js_lt (price_change_percentage_24h coin) (num 0)) l Hpass) in Hfix. rewrite Hfix.
    now apply filter_sort_insert_drop.
Qed.

(** X20: the engine is idempotent: when the pinned record, if any, has the
    id ['vanar-chain'], running the engine on its own result with the same
    pinned record, search term and filter gives that result again. *)
Theorem engine_idempotent (coins : list Coin) (vanryData : option Coin)
    (s : string) (f : Filter) :
  (forall v, vanryData = Some v -> id v = "vanar-chain") ->
  filteredAndSortedCoins (filteredAndSortedCoins coins vanryData s f) vanryData s f
  = filteredAndSortedCoins coins vanryData s f.
Proof.
  intros Hid.
  set (X := searchedAndFiltered coins s f).
  assert (HX : forall c, In c X -> matchesSearch s c = true /\ vanryMatchesFilter f c = true).
  { intros c Hc. apply searchedAndFiltered_In in Hc. tauto. }
  pose proof (searchedAndFiltered_ordered coins s f) as Hord. fold X in Hord.
  destruct vanryData as [v|].
  - destruct (pinnedMatches v s f) eqn:E.
    + rewrite (merge_shown coins v s f E). fold X.
      set (D := List.filter notVanar X).
      assert (HD : forall c, In c D ->
                matchesSearch s c = true /\ vanryMatchesFilter f c = true /\
                notVanar c = true).
      { intros c Hc. apply List.filter_In in Hc. destruct Hc as [Hc Hn].
        destruct (HX c Hc). auto. }
      assert (HordD : match f with
                      | all => True
                      | gainers => StronglySorted descending D
                      | losers => StronglySorted ascending D
                      end).
      { destruct f; [exact I | |]; now apply filter_StronglySorted. }
      pose proof E as E'. unfold pinnedMatches in E'. apply andb_true_iff in E'.
      destruct E' as [Es Ef].
      assert (Hnv : notVanar v = false).
      { unfold notVanar. rewrite (Hid v eq_refl). reflexivity. }
      rewrite (merge_shown (v :: D) v s f E). f_equal.
      unfold searchedAndFiltered.
      rewrite (filter_id (matchesSearch s) (v :: D)).
      * destruct (applyFilter_fixed f (Some v) D) as [H _].
        -- intros c Hc. now apply HD.
        -- exact HordD.
        -- intros x [= <-]. auto.
        -- rewrite H. apply filter_id. intros c Hc. now apply HD.
      * intros c [<- | Hc]; [exact Es | now apply HD].
    + rewrite (merge_hidden coins v s f E). fold X.
      rewrite (merge_hidden X v s f E). unfold searchedAndFiltered.
      rewrite (filter_id (matchesSearch s) X) by (intros c Hc; now apply HX).
      destruct (applyFilter_fixed f None X) as [_ H]; auto.
      * intros c Hc. now apply HX.
      * intros x [=].
  - rewrite !merge_absent. fold X. unfold searchedAndFiltered.
    rewrite (filter_id (matchesSearch s) X) by (intros c Hc; now apply HX).
    destruct (applyFilter_fixed f None X) as [_ H]; auto.
    + intros c Hc. now apply HX.
    + intros x [=].
Qed.

Lemma engine_idempotent_witness :
  filteredAndSortedCoins
    (filteredAndSortedCoins [Beta; Vanar; Alpha; Other] (Some VanarPinned) "" gainers)
    (Some VanarPinned) "" gainers
  = filteredAndSortedCoins [Beta; Vanar; Alpha; Other] (Some VanarPinned) "" gainers.
Proof.
  apply (engine_idempotent [Beta; Vanar; Alpha; Other] (Some VanarPinned) "" gainers).
  intros v [= <-]. reflexivity.
Defined.
